(** * Query compiler and name matcher of the media-library manager

    A shallow embedding of [pkg/models/querybuilder_sql.go], of the studio
    query builder and of the name-pattern generators of the auto-tag
    integration test, together with the properties the design document
    states about them.

    Conventions.
    - A Go [string] is a [string] of bytes; the functions of Go's [strings]
      package that the code calls are written out in [Module GoStrings].
    - A Go [int] is a [Z] kept in the 64-bit signed range; arithmetic that
      can leave the range is wrapped with [wrapInt].
    - A pointer that may be [nil] is an [option].
    - Code that panics, logs or talks to the database runs in the monad [M]:
      a computation takes the list of events so far and gives an [outcome]
      and the extended list. *)

From Stdlib Require Import ZArith List String Ascii Bool Lia.
From Stdlib Require Import Numbers.DecimalString.
Import ListNotations.

Local Open Scope Z_scope.
Local Open Scope list_scope.
Local Open Scope string_scope.

Set Implicit Arguments.

(* ===================================================================== *)
(** ** Go's [strings] package, on byte strings *)
(* ===================================================================== *)

Module GoStrings.

(** [strings.Join(elems, sep)] *)
Fixpoint Join (elems : list string) (sep : string) : string :=
  match elems with
  | [] => ""
  | [e] => e
  | e :: rest => e ++ sep ++ Join rest sep
  end.

(** [strings.Repeat(s, count)] for [count >= 0]. *)
Fixpoint Repeat (s : string) (count : nat) : string :=
  match count with
  | O => ""
  | S k => s ++ Repeat s k
  end.

Fixpoint inCutset (c : ascii) (cutset : string) : bool :=
  match cutset with
  | EmptyString => false
  | String d rest => Ascii.eqb c d || inCutset c rest
  end.

(** [strings.TrimLeft(s, cutset)] *)
Fixpoint TrimLeft (s cutset : string) : string :=
  match s with
  | EmptyString => EmptyString
  | String c rest => if inCutset c cutset then TrimLeft rest cutset else s
  end.

(** [strings.TrimRight(s, cutset)] *)
Fixpoint TrimRight (s cutset : string) : string :=
  match s with
  | EmptyString => EmptyString
  | String c rest =>
      match TrimRight rest cutset with
      | EmptyString => if inCutset c cutset then EmptyString else String c EmptyString
      | kept => String c kept
      end
  end.

(** [strings.Trim(s, cutset)] *)
Definition Trim (s cutset : string) : string :=
  TrimRight (TrimLeft s cutset) cutset.

(** [strings.HasPrefix(s, prefix)] *)
Fixpoint HasPrefix (s pre : string) : bool :=
  match pre, s with
  | EmptyString, _ => true
  | String _ _, EmptyString => false
  | String p pre', String c s' => Ascii.eqb c p && HasPrefix s' pre'
  end.

(** [strings.Contains(s, substr)] *)
Fixpoint Contains (s substr : string) : bool :=
  HasPrefix s substr ||
  match s with
  | EmptyString => false
  | String _ rest => Contains rest substr
  end.

(** The scan behind [Split] and [Replace]: [skip] counts the bytes of a
    separator occurrence still to be passed over, [cur] is the piece being
    collected. *)
Fixpoint splitScan (sep : string) (skip : nat) (cur s : string) : list string :=
  match s with
  | EmptyString => [cur]
  | String c rest =>
      match skip with
      | S k => splitScan sep k cur rest
      | O =>
          if HasPrefix s sep
          then cur :: splitScan sep (String.length sep - 1) "" rest
          else splitScan sep 0 (cur ++ String c "") rest
      end
  end.

Fixpoint explode (s : string) : list string :=
  match s with
  | EmptyString => []
  | String c rest => String c "" :: explode rest
  end.

(** [strings.Split(s, sep)]: the pieces of [s] between the non-overlapping
    occurrences of [sep], leftmost first.  With an empty [sep] Go explodes
    [s] into its characters (bytes here; the code never passes an empty
    separator). *)
Definition Split (s sep : string) : list string :=
  match sep with
  | EmptyString => explode s
  | _ => splitScan sep 0 "" s
  end.

(** [strings.Replace(s, old, new, -1)] with a non-empty [old]. *)
Definition ReplaceAll (s old new : string) : string :=
  match old with
  | EmptyString => s
  | _ => Join (Split s old) new
  end.

Definition lowerByte (c : ascii) : ascii :=
  let n := nat_of_ascii c in
  if (Nat.leb 65 n && Nat.leb n 90)%bool then ascii_of_nat (n + 32) else c.

(** [strings.ToLower(s)] on ASCII text: bytes outside [A-Z] are kept. *)
Fixpoint ToLower (s : string) : string :=
  match s with
  | EmptyString => EmptyString
  | String c rest => String (lowerByte c) (ToLower rest)
  end.

(** [strings.Compare(a, b) == 0] *)
Definition CompareEq (a b : string) : bool := String.eqb a b.

End GoStrings.

(* ===================================================================== *)
(** ** Go's [int] and [strconv.Itoa] *)
(* ===================================================================== *)

Definition intBits : Z := 64.
Definition minInt : Z := - 2 ^ (intBits - 1).
Definition maxInt : Z := 2 ^ (intBits - 1) - 1.

Definition inInt (z : Z) : Prop := minInt <= z <= maxInt.

(** Two's-complement wrap-around of an arithmetic result. *)
Definition wrapInt (z : Z) : Z :=
  (z - minInt) mod 2 ^ intBits + minInt.

(** [strconv.Itoa] *)
Definition Itoa (z : Z) : string :=
  NilZero.string_of_int (Z.to_int z).

(** The quotation mark, a tab and a line feed as one-byte strings. *)
Definition dquote : string := String (ascii_of_nat 34) EmptyString.
Definition tab : string := String (ascii_of_nat 9) EmptyString.
Definition nl : string := String (ascii_of_nat 10) EmptyString.


(* ===================================================================== *)
(** ** Effects: panics, the log and the database *)
(* ===================================================================== *)

(** A Go [error] value.  [sql.ErrNoRows] is the one the code tells apart. *)
Inductive error : Type :=
| ErrNoRows
| ErrOther (msg : string).

Definition isErrNoRows (e : error) : bool :=
  match e with ErrNoRows => true | ErrOther _ => false end.

(** An [interface{}] passed as a positional SQL argument. *)
Inductive arg : Type :=
| ArgString (s : string)
| ArgInt (z : Z).

(** What a [panic] carries. *)
Inductive panicValue : Type :=
| PanicString (msg : string)      (* panic("...") *)
| PanicError (e : error)          (* panic(err) *)
| PanicNilDereference             (* method call through a nil pointer *)
| PanicIndexOutOfRange            (* s[i] past the end of a slice *)
| PanicReflect (msg : string).    (* reflect: call on a value of the wrong kind *)

Inductive outcome (A : Type) : Type :=
| Returned (a : A)
| Panicked (p : panicValue).

Arguments Returned {A} a.
Arguments Panicked {A} p.

(** A transaction handle ([*sqlx.Tx] when not nil). *)
Definition Tx : Type := nat.

(** The observable actions of the code, in program order. *)
Inductive event : Type :=
| EvErrorf (format : string) (operands : list string) (args : list arg)
| EvDBGet (query : string) (args : list arg)
| EvDBSelect (query : string) (args : list arg)
| EvDBQueryx (query : string) (args : list arg)
| EvTxExec (tx : Tx) (query : string) (args : list arg)
| EvTxNamedExec (tx : Tx) (query : string)
| EvTxLastInsertId (tx : Tx)
| EvTxGet (tx : Tx) (query : string) (args : list arg)
| EvTxQueryx (tx : Tx) (query : string) (args : list arg).

Definition trace : Type := list event.

(** A computation: from the events so far to an outcome and the events
    after it.  The events are kept when the computation panics. *)
Definition M (A : Type) : Type := trace -> outcome A * trace.

Definition ret {A} (a : A) : M A := fun t => (Returned a, t).

Definition bind {A B} (m : M A) (k : A -> M B) : M B :=
  fun t =>
    match m t with
    | (Returned a, t') => k a t'
    | (Panicked p, t') => (Panicked p, t')
    end.

Definition panic {A} (p : panicValue) : M A := fun t => (Panicked p, t).

(** Append one event. *)
Definition emit (e : event) : M unit := fun t => (Returned tt, (t ++ [e])%list).

(** Append the event of a call to the store and return what the store
    answers, which may depend on everything that happened before. *)
Definition ask {A} (e : event) (answer : trace -> A) : M A :=
  fun t => (Returned (answer t), (t ++ [e])%list).

Declare Scope go_scope.
Delimit Scope go_scope with go.
Notation "x <- m ;; k" := (bind m (fun x => k))
  (at level 61, m at next level, right associativity) : go_scope.
Notation "m ;;; k" := (bind m (fun _ => k))
  (at level 61, right associativity) : go_scope.
Local Open Scope go_scope.

(** Run a computation from the empty trace. *)
Definition run {A} (m : M A) : outcome A * trace := m [].

(** [logger.Errorf] *)
Definition Errorf (format : string) (operands : list string) (args : list arg) : M unit :=
  emit (EvErrorf format operands args).

(* ===================================================================== *)
(** ** [querybuilder_sql.go]: the fragment builders *)
(* ===================================================================== *)

(** The find filter, with the fields of the filter request.  [Sort] and
    [Direction] are only read through [GetSort] and [GetDirection]. *)
Record FindFilterType : Type := {
  Q : option string;
  Page : option Z;
  PerPage : option Z;
  Sort : option string;
  Direction : option string
}.

(** [&FindFilterType{}] *)
Definition emptyFindFilter : FindFilterType :=
  {| Q := None; Page := None; PerPage := None; Sort := None; Direction := None |}.

Definition getColumn (tableName columnName : string) : string :=
  tableName ++ "." ++ columnName.

Definition selectAll (tableName : string) : string :=
  let idColumn := getColumn tableName "*" in
  "SELECT " ++ idColumn ++ " FROM " ++ tableName ++ " ".

Definition selectDistinctIDs (tableName : string) : string :=
  let idColumn := getColumn tableName "id" in
  "SELECT DISTINCT " ++ idColumn ++ " FROM " ++ tableName ++ " ".

Definition buildCountQuery (query : string) : string :=
  "SELECT COUNT(*) as count FROM (" ++ query ++ ") as temp".

Definition getPagination (findFilter : option FindFilterType) : M string :=
  match findFilter with
  | None => panic (PanicString "nil find filter for pagination")
  | Some findFilter =>
      let page :=
        match Page findFilter with
        | None => 1
        | Some p => if (p <? 1)%Z then 1 else p
        end in
      let perPage :=
        match PerPage findFilter with
        | None => 25
        | Some n => n
        end in
      let perPage :=
        if (perPage >? 120)%Z then 120
        else if (perPage <? 1)%Z then 1
        else perPage in
      let page := wrapInt (wrapInt (page - 1) * perPage) in
      ret (" LIMIT " ++ Itoa perPage ++ " OFFSET " ++ Itoa page ++ " ")
  end.

Section Sort.

(** [strconv.FormatFloat(randomSortFloat, 'f', 16, 32)]: the rendering of
    the random float drawn once when the process starts. *)
Variable randomSortString : string.

Definition getSort (sort direction tableName : string) : string :=
  let direction :=
    if negb (String.eqb direction "ASC") && negb (String.eqb direction "DESC")
    then "ASC" else direction in
  if GoStrings.Contains sort "_count" then
    let relationTableName := hd "" (GoStrings.Split sort "_") in
    let colName := getColumn relationTableName "id" in
    " ORDER BY COUNT(distinct " ++ colName ++ ") " ++ direction
  else if GoStrings.CompareEq sort "filesize" then
    let colName := getColumn tableName "size" in
    " ORDER BY cast(" ++ colName ++ " as integer) " ++ direction
  else if GoStrings.CompareEq sort "random" then
    let colName := getColumn tableName "id" in
    " ORDER BY " ++ "(substr(" ++ colName ++ " * " ++ randomSortString
      ++ ", length(" ++ colName ++ ") + 2))" ++ " " ++ direction
  else
    let colName := getColumn tableName sort in
    let additional :=
      if String.eqb tableName "scenes"
      then ", bitrate DESC, framerate DESC, rating DESC, duration DESC"
      else if String.eqb tableName "scene_markers"
      then ", scene_markers.scene_id ASC, scene_markers.seconds ASC"
      else "" in
    if GoStrings.CompareEq sort "name"
    then " ORDER BY " ++ colName ++ " COLLATE NOCASE " ++ direction ++ additional
    else " ORDER BY " ++ colName ++ " " ++ direction ++ additional.

End Sort.

(** [append(slice, x)] *)
Definition append {A : Type} (slice : list A) (x : A) : list A :=
  (slice ++ [x])%list.

(** [for _, x := range xs { body }] over an accumulator. *)
Definition forRange {A S : Type} (xs : list A) (body : S -> A -> S) (init : S) : S :=
  fold_left body xs init.

(** [getSearch]: the search text is spliced into the statement. *)
Definition getSearch (columns : list string) (q : string) : string :=
  let queryWords := GoStrings.Split q " " in
  let trimmedQuery := GoStrings.Trim q dquote in
  let likeClauses :=
    if String.eqb trimmedQuery q then
      forRange queryWords (fun acc word =>
        forRange columns (fun acc column =>
          append acc (column ++ " LIKE '%" ++ word ++ "%'")) acc) []
    else
      forRange columns (fun acc column =>
        append acc (column ++ " LIKE '%" ++ trimmedQuery ++ "%'")) [] in
  let likes := GoStrings.Join likeClauses " OR " in
  "(" ++ likes ++ ")".

(** [getSearchBinding]: the search text goes to the argument list. *)
Definition getSearchBinding (columns : list string) (q : string) (not : bool)
  : string * list arg :=
  let notStr := if not then " NOT " else "" in
  let binaryType := if not then " AND " else " OR " in
  let queryWords := GoStrings.Split q " " in
  let trimmedQuery := GoStrings.Trim q dquote in
  let '(likeClauses, args) :=
    if String.eqb trimmedQuery q then
      forRange queryWords (fun acc word =>
        forRange columns (fun '(likeClauses, args) column =>
          (append likeClauses (column ++ notStr ++ " LIKE ?"),
           append args (ArgString ("%" ++ word ++ "%")))) acc) ([], [])
    else
      forRange columns (fun '(likeClauses, args) column =>
        (append likeClauses (column ++ notStr ++ " LIKE ?"),
         append args (ArgString ("%" ++ trimmedQuery ++ "%")))) ([], []) in
  let likes := GoStrings.Join likeClauses binaryType in
  ("(" ++ likes ++ ")", args).

(** [getInBinding]; [strings.Repeat] panics on a negative count. *)
Definition getInBinding (length : Z) : M string :=
  if (length <? 0)%Z then panic (PanicString "strings: negative Repeat count")
  else
    let bindings := GoStrings.Repeat "?, " (Z.to_nat length) in
    let bindings := GoStrings.TrimRight bindings ", " in
    ret ("(" ++ bindings ++ ")").

(** The dynamic type of the [value interface{}] of a criterion, as the type
    switch of [getCriterionModifierBinding] tells them apart. *)
Inductive criterionValue : Type :=
| ValStrings (x : list string)      (* []string *)
| ValInts (x : list Z)              (* []int *)
| ValOther.                         (* any other dynamic type *)

Section Criterion.

(** The modifier enumeration and its two methods, declared with the
    generated GraphQL models. *)
Variable CriterionModifier : Type.
Variable ModifierString : CriterionModifier -> string.   (* String() *)
Variable IsValid : CriterionModifier -> bool.            (* IsValid() *)

Definition getSimpleCriterionClause (criterionModifier : CriterionModifier)
    (rhs : string) : M (string * Z) :=
  let modifier := ModifierString criterionModifier in
  if IsValid criterionModifier then
    if String.eqb modifier "EQUALS" then ret ("= " ++ rhs, 1)
    else if String.eqb modifier "NOT_EQUALS" then ret ("!= " ++ rhs, 1)
    else if String.eqb modifier "GREATER_THAN" then ret ("> " ++ rhs, 1)
    else if String.eqb modifier "LESS_THAN" then ret ("< " ++ rhs, 1)
    else if String.eqb modifier "IS_NULL" then ret ("IS NULL", 0)
    else if String.eqb modifier "NOT_NULL" then ret ("IS NOT NULL", 0)
    else Errorf "todo" [] [] ;;; ret ("= ?", 1)
  else ret ("= ?", 1).

Definition isSimpleModifier (modifier : string) : bool :=
  existsb (String.eqb modifier)
    ["EQUALS"; "NOT_EQUALS"; "GREATER_THAN"; "LESS_THAN"; "IS_NULL"; "NOT_NULL"].

Definition getCriterionModifierBinding (criterionModifier : CriterionModifier)
    (value : criterionValue) : M (string * Z) :=
  let length :=
    match value with
    | ValStrings x => Z.of_nat (List.length x)
    | ValInts x => Z.of_nat (List.length x)
    | ValOther => 1
    end in
  let modifier := ModifierString criterionModifier in
  if IsValid criterionModifier then
    if isSimpleModifier modifier then
      getSimpleCriterionClause criterionModifier "?"
    else if String.eqb modifier "INCLUDES" then
      b <- getInBinding length ;; ret ("IN " ++ b, length)
    else if String.eqb modifier "EXCLUDES" then
      b <- getInBinding length ;; ret ("NOT IN " ++ b, length)
    else Errorf "todo" [] [] ;;; ret ("= ?", 1)
  else ret ("= ?", 1).

Record IntCriterionInput : Type := {
  Value : Z;
  Modifier : CriterionModifier
}.

Definition getIntCriterionWhereClause (column : string) (input : IntCriterionInput)
  : M (string * Z) :=
  r <- getCriterionModifierBinding (Modifier input) ValOther ;;
  let '(binding, count) := r in
  ret (column ++ " " ++ binding, count).

End Criterion.

(* ===================================================================== *)
(** ** [querybuilder_sql.go]: running the queries *)
(* ===================================================================== *)

(** What a call to the store answers: the scanned value, or an error that
    leaves the destination as it was. *)
Inductive dbResult (A : Type) : Type :=
| DBOk (a : A)
| DBErr (e : error).

Arguments DBOk {A} a.
Arguments DBErr {A} e.

(** [err.Error()] *)
Definition errorString (e : error) : string :=
  match e with
  | ErrNoRows => "sql: no rows in result set"
  | ErrOther msg => msg
  end.

(** A method call through a [*sqlx.Tx]: a nil pointer dereference when the
    transaction is nil. *)
Definition withTx {A} (tx : option Tx) (call : Tx -> M A) : M A :=
  match tx with
  | None => panic PanicNilDereference
  | Some h => call h
  end.

(** [for _, x := range xs { body }] where the body may panic. *)
Fixpoint forRangeM {A S : Type} (xs : list A) (body : S -> A -> M S) (acc : S) : M S :=
  match xs with
  | [] => ret acc
  | x :: rest => acc' <- body acc x ;; forRangeM rest body acc'
  end.

Section Store.

(** The store, as the code sees it: the answer to each call, which may
    depend on all the events before it. *)
Variable dbGet : trace -> string -> list arg -> dbResult Z.
Variable dbSelect : trace -> string -> list arg -> dbResult (list Z).
Variable txExec : trace -> Tx -> string -> list arg -> option error.

(** [database.DB.Get(&result, query, args...)] *)
Definition DBGet (query : string) (args : list arg) : M (dbResult Z) :=
  ask (EvDBGet query args) (fun t => dbGet t query args).

(** [database.DB.Select(&result, query, args...)] *)
Definition DBSelect (query : string) (args : list arg) : M (dbResult (list Z)) :=
  ask (EvDBSelect query args) (fun t => dbSelect t query args).

(** [tx.Exec(query, args...)] *)
Definition TxExec (tx : option Tx) (query : string) (args : list arg)
  : M (option error) :=
  withTx tx (fun h => ask (EvTxExec h query args) (fun t => txExec t h query args)).

Definition runIdsQuery (query : string) (args : list arg)
  : M (list Z * option error) :=
  r <- DBSelect query args ;;
  match r with
  | DBErr e =>
      if negb (isErrNoRows e) then ret ([], Some e)
      else ret ([], None)          (* result is still nil: an empty vsm *)
  | DBOk result => ret (map (fun v => v) result, None)
  end.

Definition runCountQuery (query : string) (args : list arg)
  : M (Z * option error) :=
  r <- DBGet query args ;;
  match r with
  | DBErr e =>
      if negb (isErrNoRows e) then ret (0, Some e)
      else ret (0, None)           (* result.Int is still 0 *)
  | DBOk count => ret (count, None)
  end.

Definition executeFindQuery (tableName body : string) (args : list arg)
    (sortAndPagination : string) (whereClauses havingClauses : list string)
  : M (list Z * Z) :=
  let body :=
    match whereClauses with
    | [] => body
    | _ => body ++ " WHERE " ++ GoStrings.Join whereClauses " AND "
    end in
  let body := body ++ " GROUP BY " ++ tableName ++ ".id " in
  let body :=
    match havingClauses with
    | [] => body
    | _ => body ++ " HAVING " ++ GoStrings.Join havingClauses " AND "
    end in
  let countQuery := buildCountQuery body in
  c <- runCountQuery countQuery args ;;
  let '(countResult, countErr) := c in
  let idsQuery := body ++ sortAndPagination in
  i <- runIdsQuery idsQuery args ;;
  let '(idsResult, idsErr) := i in
  match countErr with
  | Some e =>
      Errorf "Error executing count query with SQL: %s, args: %v, error: %s"
             [countQuery; errorString e] args ;;;
      panic (PanicError e)
  | None =>
      match idsErr with
      | Some e =>
          Errorf "Error executing find query with SQL: %s, args: %v, error: %s"
                 [idsQuery; errorString e] args ;;;
          panic (PanicError e)
      | None => ret (idsResult, countResult)
      end
  end.

Record queryBuilder : Type := {
  tableName : string;
  body : string;
  whereClauses : list string;
  havingClauses : list string;
  args : list arg;
  sortAndPagination : string
}.

Definition executeFind (qb : queryBuilder) : M (list Z * Z) :=
  executeFindQuery (tableName qb) (body qb) (args qb) (sortAndPagination qb)
                   (whereClauses qb) (havingClauses qb).

Definition addWhere (qb : queryBuilder) (clauses : list string) : queryBuilder :=
  {| tableName := tableName qb; body := body qb;
     whereClauses := (whereClauses qb ++ clauses)%list;
     havingClauses := havingClauses qb; args := args qb;
     sortAndPagination := sortAndPagination qb |}.

Definition addHaving (qb : queryBuilder) (clauses : list string) : queryBuilder :=
  {| tableName := tableName qb; body := body qb;
     whereClauses := whereClauses qb;
     havingClauses := (havingClauses qb ++ clauses)%list; args := args qb;
     sortAndPagination := sortAndPagination qb |}.

Definition addArg (qb : queryBuilder) (new : list arg) : queryBuilder :=
  {| tableName := tableName qb; body := body qb;
     whereClauses := whereClauses qb;
     havingClauses := havingClauses qb; args := (args qb ++ new)%list;
     sortAndPagination := sortAndPagination qb |}.

Definition ensureTx (tx : option Tx) : M unit :=
  match tx with
  | None => panic (PanicString "must use a transaction")
  | Some _ => ret tt
  end.

Definition executeDeleteQuery (tableName id : string) (tx : option Tx)
  : M (option error) :=
  match tx with
  | None => panic (PanicString "must use a transaction")
  | Some _ =>
      let idColumnName := getColumn tableName "id" in
      TxExec tx ("DELETE FROM " ++ tableName ++ " WHERE " ++ idColumnName ++ " = ?")
             [ArgString id]
  end.

End Store.

(* ===================================================================== *)
(** ** [sqlGenKeys]: the SET clause of an update *)
(* ===================================================================== *)

(** [time.Time], by what [IsZero] reads: seconds since January 1, year 1
    and nanoseconds within the second. *)
Record Time : Type := { sec : Z; nsec : Z }.

Definition IsZero (t : Time) : bool := (sec t =? 0)%Z && (nsec t =? 0)%Z.

(** A [float64] by its IEEE 754 bit pattern; [t != 0] fails for the two
    zeros only. *)
Definition float64NonZero (bits : Z) : bool :=
  negb (Z.land bits (2 ^ 63 - 1) =? 0)%Z.

(** The value of a struct field, by the cases of the type switch. *)
Inductive fieldValue : Type :=
| FString (t : string)
| FInt (t : Z)
| FFloat64 (bits : Z)
| FSQLiteTimestamp (Timestamp : Time)
| FSQLiteDate (str : string) (Valid : bool)
| FNullString (str : string) (Valid : bool)
| FNullBool (b : bool) (Valid : bool)
| FNullInt64 (n : Z) (Valid : bool)
| FNullFloat64 (bits : Z) (Valid : bool)
| FNilable (isNil : bool)     (* pointer, slice, map, chan, func, interface *)
| FNotNilable.                (* any other kind: reflect's IsNil panics *)

(** A struct field as reflection shows it: the [db] tag and the value. *)
Record structField : Type := {
  dbTag : string;
  fieldOf : fieldValue
}.

(** [fmt.Sprintf("%s=:%s", key, key)] *)
Definition keyBinding (key : string) : string := key ++ "=:" ++ key.

(** The body of the loop of [sqlGenKeys] over the fields: [query] is the
    slice of bindings collected so far ([continue] leaves it as it is). *)
Definition sqlGenKeysField (partial : bool) (query : list string) (fld : structField)
  : M (list string) :=
  (* get key for struct tag *)
  let rawKey := dbTag fld in
  let key := hd "" (GoStrings.Split rawKey ",") in
  if String.eqb key "id" then ret query
  else
    match fieldOf fld with
    | FString t =>
        if partial || negb (String.eqb t "")
        then ret (append query (keyBinding key)) else ret query
    | FInt t =>
        if partial || negb (t =? 0)%Z
        then ret (append query (keyBinding key)) else ret query
    | FFloat64 t =>
        if partial || float64NonZero t
        then ret (append query (keyBinding key)) else ret query
    | FSQLiteTimestamp t =>
        if partial || negb (IsZero t)
        then ret (append query (keyBinding key)) else ret query
    | FSQLiteDate _ valid
    | FNullString _ valid
    | FNullBool _ valid
    | FNullInt64 _ valid
    | FNullFloat64 _ valid =>
        if partial || valid
        then ret (append query (keyBinding key)) else ret query
    | FNilable isNil =>
        if negb isNil
        then ret (append query (keyBinding key)) else ret query
    | FNotNilable =>
        panic (PanicReflect "reflect: call of reflect.Value.IsNil on a value that cannot be nil")
    end.

Definition sqlGenKeys (i : list structField) (partial : bool) : M string :=
  query <- forRangeM i (sqlGenKeysField partial) [] ;;
  ret (GoStrings.Join query ", ").

Definition SQLGenKeys (i : list structField) : M string := sqlGenKeys i false.

Definition SQLGenKeysPartial (i : list structField) : M string := sqlGenKeys i true.

(* ===================================================================== *)
(** ** The studio query builder *)
(* ===================================================================== *)

(** The rows of a [Queryx]: what [StructScan] gives for each row that
    [Next] reaches, and what [rows.Err()] gives at the end. *)
Record Rows (Studio : Type) : Type := {
  scans : list (dbResult Studio);
  rowsErr : option error
}.

Section StudioQueryBuilder.

(** The studio record, declared with the models: its fields as reflection
    shows them, and its [ID]. *)
Variable Studio : Type.
Variable studioFields : Studio -> list structField.
Variable StudioID : Studio -> Z.

(** The two accessors of the find filter, declared with the models. *)
Variable GetSort : FindFilterType -> string -> string.
Variable GetDirection : FindFilterType -> string.

Variable randomSortString : string.

(** The store. *)
Variable dbGet : trace -> string -> list arg -> dbResult Z.
Variable dbSelect : trace -> string -> list arg -> dbResult (list Z).
Variable dbQueryx : trace -> string -> list arg -> dbResult (Rows Studio).
Variable txExec : trace -> Tx -> string -> list arg -> option error.
Variable txNamedExec : trace -> Tx -> string -> Studio -> option error.
Variable txLastInsertId : trace -> Tx -> dbResult Z.
Variable txGet : trace -> Tx -> string -> list arg -> dbResult Studio.
Variable txQueryx : trace -> Tx -> string -> list arg -> dbResult (Rows Studio).

Definition TxNamedExec (tx : option Tx) (query : string) (arg : Studio)
  : M (option error) :=
  withTx tx (fun h => ask (EvTxNamedExec h query) (fun t => txNamedExec t h query arg)).

Definition LastInsertId (tx : option Tx) : M (dbResult Z) :=
  withTx tx (fun h => ask (EvTxLastInsertId h) (fun t => txLastInsertId t h)).

Definition TxGet (tx : option Tx) (query : string) (args : list arg)
  : M (dbResult Studio) :=
  withTx tx (fun h => ask (EvTxGet h query args) (fun t => txGet t h query args)).

Definition TxQueryx (tx : option Tx) (query : string) (args : list arg)
  : M (dbResult (Rows Studio)) :=
  withTx tx (fun h => ask (EvTxQueryx h query args) (fun t => txQueryx t h query args)).

Definition DBQueryx (query : string) (args : list arg) : M (dbResult (Rows Studio)) :=
  ask (EvDBQueryx query args) (fun t => dbQueryx t query args).

Definition createStatement : string :=
  "INSERT INTO studios (image, checksum, name, url, created_at, updated_at)" ++ nl
  ++ tab ++ tab ++ tab ++ tab
  ++ "VALUES (:image, :checksum, :name, :url, :created_at, :updated_at)" ++ nl
  ++ tab ++ tab.

Definition Create (newStudio : Studio) (tx : option Tx)
  : M (option Studio * option error) :=
  ensureTx tx ;;;
  err <- TxNamedExec tx createStatement newStudio ;;
  match err with
  | Some e => ret (None, Some e)
  | None =>
      r <- LastInsertId tx ;;
      match r with
      | DBErr e => ret (None, Some e)
      | DBOk studioID =>
          g <- TxGet tx "SELECT * FROM studios WHERE id = ? LIMIT 1" [ArgInt studioID] ;;
          match g with
          | DBErr e => ret (None, Some e)
          | DBOk newStudio => ret (Some newStudio, None)
          end
      end
  end.

Definition Update (updatedStudio : Studio) (tx : option Tx)
  : M (option Studio * option error) :=
  ensureTx tx ;;;
  keys <- SQLGenKeys (studioFields updatedStudio) ;;
  err <- TxNamedExec tx ("UPDATE studios SET " ++ keys ++ " WHERE studios.id = :id")
                     updatedStudio ;;
  match err with
  | Some e => ret (None, Some e)
  | None =>
      g <- TxGet tx "SELECT * FROM studios WHERE id = ? LIMIT 1"
                 [ArgInt (StudioID updatedStudio)] ;;
      match g with
      | DBErr e => ret (None, Some e)
      | DBOk updatedStudio => ret (Some updatedStudio, None)
      end
  end.

Definition Destroy (id : string) (tx : option Tx) : M (option error) :=
  (* remove studio from scenes *)
  err <- TxExec txExec tx "UPDATE scenes SET studio_id = null WHERE studio_id = ?"
                [ArgString id] ;;
  match err with
  | Some e => ret (Some e)
  | None =>
      (* remove studio from scraped items *)
      err <- TxExec txExec tx
                    "UPDATE scraped_items SET studio_id = null WHERE studio_id = ?"
                    [ArgString id] ;;
      match err with
      | Some e => ret (Some e)
      | None => executeDeleteQuery txExec "studios" id tx
      end
  end.

(** The loop of [queryStudios] over the rows: a failed [StructScan] ends it
    with the error. *)
Fixpoint scanRows (rows : list (dbResult Studio)) (studios : list Studio)
  : list Studio + error :=
  match rows with
  | [] => inl studios
  | DBOk studio :: rest => scanRows rest (append studios studio)
  | DBErr e :: _ => inr e
  end.

Definition queryStudios (query : string) (args : list arg) (tx : option Tx)
  : M (option (list Studio) * option error) :=
  r <- match tx with
       | Some _ => TxQueryx tx query args
       | None => DBQueryx query args
       end ;;
  match r with
  | DBErr e =>
      if negb (isErrNoRows e) then ret (None, Some e)
      else panic PanicNilDereference     (* defer rows.Close() on nil rows *)
  | DBOk rows =>
      match scanRows (scans rows) [] with
      | inr e => ret (None, Some e)
      | inl studios =>
          match rowsErr rows with
          | Some e => ret (None, Some e)
          | None => ret (Some studios, None)
          end
      end
  end.

Definition queryStudio (query : string) (args : list arg) (tx : option Tx)
  : M (option Studio * option error) :=
  r <- queryStudios query args tx ;;
  let '(results, err) := r in
  match err, results with
  | Some e, _ => ret (None, Some e)
  | None, Some (first :: _) => ret (Some first, None)
  | None, _ => ret (None, None)
  end.

Definition Find (id : Z) (tx : option Tx) : M (option Studio * option error) :=
  queryStudio "SELECT * FROM studios WHERE id = ? LIMIT 1" [ArgInt id] tx.

Definition FindBySceneID (sceneID : Z) : M (option Studio * option error) :=
  queryStudio
    "SELECT studios.* FROM studios JOIN scenes ON studios.id = scenes.studio_id WHERE scenes.id = ? LIMIT 1"
    [ArgInt sceneID] None.

Definition FindByName (name : string) (tx : option Tx)
  : M (option Studio * option error) :=
  queryStudio "SELECT * FROM studios WHERE name = ? LIMIT 1" [ArgString name] tx.


Definition getStudioSort (findFilter : option FindFilterType) : string :=
  let '(sort, direction) :=
    match findFilter with
    | None => ("name", "ASC")
    | Some ff => (GetSort ff "name", GetDirection ff)
    end in
  getSort randomSortString sort direction "studios".

Definition All : M (option (list Studio) * option error) :=
  queryStudios (selectAll "studios" ++ getStudioSort None) [] None.

(** The statement pieces that [Query] hands to [executeFindQuery]. *)
Record findPlan : Type := {
  planBody : string;
  planArgs : list arg;
  planSortAndPagination : string;
  planWhere : list string;
  planHaving : list string
}.

Definition studioJoin : string :=
  nl ++ tab ++ tab ++ "left join scenes on studios.id = scenes.studio_id"
  ++ tab ++ tab ++ nl ++ tab.

(** [Query] up to the call of [executeFindQuery]. *)
Definition queryPlan (findFilter : option FindFilterType) : M findPlan :=
  let findFilter :=
    match findFilter with
    | None => emptyFindFilter
    | Some ff => ff
    end in
  let whereClauses : list string := [] in
  let havingClauses : list string := [] in
  let args : list arg := [] in
  let body := selectDistinctIDs "studios" in
  let body := body ++ studioJoin in
  let whereClauses :=
    match Q findFilter with
    | Some q =>
        if negb (String.eqb q "")
        then append whereClauses (getSearch ["studios.name"] q)
        else whereClauses
    | None => whereClauses
    end in
  pagination <- getPagination (Some findFilter) ;;
  let sortAndPagination := getStudioSort (Some findFilter) ++ pagination in
  ret {| planBody := body; planArgs := args;
         planSortAndPagination := sortAndPagination;
         planWhere := whereClauses; planHaving := havingClauses |}.

Definition Query (findFilter : option FindFilterType)
  : M (list (option Studio) * Z) :=
  plan <- queryPlan findFilter ;;
  r <- executeFindQuery dbGet dbSelect "studios" (planBody plan) (planArgs plan)
         (planSortAndPagination plan) (planWhere plan) (planHaving plan) ;;
  let '(idsResult, countResult) := r in
  studios <- forRangeM idsResult (fun studios id =>
    f <- Find id None ;;
    let '(studio, _) := f in
    ret (append studios studio)) [] ;;
  ret (studios, countResult).

End StudioQueryBuilder.

(* ===================================================================== *)
(** ** The name patterns of the auto-tag integration test *)
(* ===================================================================== *)

Module AutoTagTest.

Definition testName : string := "Foo's Bar".
Definition testExtension : string := ".mp4".

Definition testSeparators : list string := ["."; "-"; "_"; " "].

Definition generateNamePatterns (name separator : string) : list string :=
  let ret : list string := [] in
  let ret := append ret (name ++ separator ++ "aaa" ++ testExtension) in
  let ret := append ret ("aaa" ++ separator ++ name ++ testExtension) in
  let ret := append ret ("aaa" ++ separator ++ name ++ separator ++ "bbb" ++ testExtension) in
  let ret := append ret ("dir/" ++ name ++ separator ++ "aaa" ++ testExtension) in
  let ret := append ret ("dir\" ++ name ++ separator ++ "aaa" ++ testExtension) in
  let ret := append ret (name ++ separator ++ "aaa/dir/bbb" ++ testExtension) in
  let ret := append ret (name ++ separator ++ "aaa\dir\bbb" ++ testExtension) in
  let ret := append ret ("dir/" ++ name ++ separator ++ "/aaa" ++ testExtension) in
  let ret := append ret ("dir\" ++ name ++ separator ++ "\aaa" ++ testExtension) in
  ret.

(** [splitted[0]] and [splitted[1]] panic when the name has no space. *)
Definition generateFalseNamePattern (name separator : string) : M string :=
  let splitted := GoStrings.Split name " " in
  match splitted with
  | first :: second :: _ =>
      ret (first ++ separator ++ "aaa" ++ separator ++ second ++ testExtension)
  | _ => panic PanicIndexOutOfRange
  end.

(** The paths that [createScenes] expects to be tagged. *)
Definition scenePatterns : list string :=
  forRange testSeparators (fun scenePatterns separator =>
    let scenePatterns :=
      (scenePatterns ++ generateNamePatterns testName separator)%list in
    let scenePatterns :=
      (scenePatterns
         ++ generateNamePatterns (GoStrings.ToLower testName) separator)%list in
    if negb (String.eqb separator " ")
    then (scenePatterns
            ++ generateNamePatterns
                 (GoStrings.ReplaceAll testName " " separator) separator)%list
    else scenePatterns) [].

(** The paths that [createScenes] expects to stay untagged. *)
Definition falseScenePatterns : M (list string) :=
  forRangeM testSeparators (fun falseScenePatterns separator =>
    p <- generateFalseNamePattern testName separator ;;
    ret (append falseScenePatterns p)) [].

End AutoTagTest.

(* ===================================================================== *)
(** ** The name-pattern matcher *)
(* ===================================================================== *)

Module Matcher.

(** Modelled from the spec: the recognized separators of the name-pattern
    matcher; the matcher itself is not among the files at hand. *)
Definition separators : list string := ["."; "-"; "_"; " "].

(** Modelled from the spec: a byte that may flank a name, that is a
    recognized separator or one of the two path delimiters; the matcher
    itself is not among the files at hand. *)
Definition isDelimiter (c : ascii) : bool :=
  GoStrings.inCutset c ".-_ /\".

(** Modelled from the spec: the name pattern set of an entity name, that is
    the original casing, the lower-cased name and, for every recognized
    separator, the name with its spaces replaced by the separator; the
    matcher itself is not among the files at hand. *)
Definition namePatternSet (name : string) : list string :=
  name :: GoStrings.ToLower name
    :: map (fun sep => GoStrings.ReplaceAll name " " sep) separators.

(** Modelled from the spec: the path after its first [n] bytes, a helper
    of the matcher, which is not among the files at hand. *)
Fixpoint skipBytes (n : nat) (s : string) : string :=
  match n, s with
  | O, _ => s
  | S k, String _ rest => skipBytes k rest
  | S _, EmptyString => EmptyString
  end.

(** Modelled from the spec: the text after an occurrence ends the token
    when nothing follows or a delimiter does; a helper of the matcher,
    which is not among the files at hand. *)
Definition endsToken (rest : string) : bool :=
  match rest with
  | EmptyString => true
  | String c _ => isDelimiter c
  end.

(** Modelled from the spec: the test whether a path contains a pattern
    flanked on both sides by the start or end of the path or by a
    delimiter, scanning the path from the left; [atStart] tells whether
    the position scanned may start a token.  The matcher itself is not
    among the files at hand. *)
Fixpoint containsToken (atStart : bool) (pattern path : string) : bool :=
  (atStart && GoStrings.HasPrefix path pattern
     && endsToken (skipBytes (String.length pattern) path))
  || match path with
     | EmptyString => false
     | String c rest => containsToken (isDelimiter c) pattern rest
     end.

(** Modelled from the spec: [matches(entityName, filePath)], that is some
    variant of the pattern set occurs in the path as a whole token,
    compared without regard to case; the matcher itself is not among the
    files at hand. *)
Definition matches (entityName filePath : string) : bool :=
  existsb
    (fun pattern =>
       containsToken true (GoStrings.ToLower pattern) (GoStrings.ToLower filePath))
    (namePatternSet entityName).

(** The claim's words: [token] occurs in [path] as one contiguous piece,
    with the start of the path or a delimiter before it and the end of the
    path or a delimiter after it. *)
Definition leftFlank (before : string) : Prop :=
  before = "" \/ exists front c, before = front ++ String c "" /\ isDelimiter c = true.

Definition rightFlank (after : string) : Prop :=
  after = "" \/ exists c back, after = String c back /\ isDelimiter c = true.

Definition occursAsToken (token path : string) : Prop :=
  exists before after,
    path = before ++ token ++ after /\ leftFlank before /\ rightFlank after.

End Matcher.

(* ===================================================================== *)
(** * Properties *)
(* ===================================================================== *)

(** ** Evaluation of the string and integer primitives *)

Example Itoa_25 : Itoa 25 = "25".
Proof. reflexivity. Qed.

Example Itoa_0 : Itoa 0 = "0".
Proof. reflexivity. Qed.

Example Itoa_negative : Itoa (-4) = "-4".
Proof. reflexivity. Qed.

Example Split_words : GoStrings.Split "a b  c" " " = ["a"; "b"; ""; "c"].
Proof. reflexivity. Qed.

Example Split_nothing : GoStrings.Split "" " " = [""].
Proof. reflexivity. Qed.

Example Split_tag : GoStrings.Split "id,omitempty" "," = ["id"; "omitempty"].
Proof. reflexivity. Qed.

Example Trim_quotes :
  GoStrings.Trim (dquote ++ "foo bar" ++ dquote) dquote = "foo bar".
Proof. reflexivity. Qed.

Example TrimRight_bindings : GoStrings.TrimRight "?, ?, " ", " = "?, ?".
Proof. reflexivity. Qed.

Example wrapInt_max_plus_one : wrapInt (maxInt + 1) = minInt.
Proof. reflexivity. Qed.

(** ** Byte strings *)

Lemma append_nil_r (s : string) : s ++ "" = s.
Proof. induction s as [|c s IH]; simpl; [reflexivity | now rewrite IH]. Qed.

Lemma append_assoc (a b c : string) : (a ++ b) ++ c = a ++ (b ++ c).
Proof. induction a as [|x a IH]; simpl; [reflexivity | now rewrite IH]. Qed.

Lemma append_length (a b : string) :
  String.length (a ++ b) = (String.length a + String.length b)%nat.
Proof. induction a as [|x a IH]; simpl; [reflexivity | now rewrite IH]. Qed.

Lemma append_inj_l (a b c : string) : a ++ b = a ++ c -> b = c.
Proof.
  induction a as [|x a IH]; simpl; intros H; [exact H|].
  injection H as H. now apply IH.
Qed.

(** ** Integers *)

Lemma wrapInt_inInt (z : Z) : inInt z -> wrapInt z = z.
Proof.
  unfold inInt, wrapInt, minInt, maxInt, intBits. intros H.
  rewrite Z.mod_small; lia.
Qed.

Lemma wrapInt_range (z : Z) : inInt (wrapInt z).
Proof.
  unfold inInt, wrapInt, minInt, maxInt, intBits.
  pose proof (Z.mod_pos_bound (z - - 2 ^ (64 - 1)) (2 ^ 64) ltac:(lia)). lia.
Qed.

Lemma wrapInt_mul_l (a b : Z) : wrapInt (wrapInt a * b) = wrapInt (a * b).
Proof.
  unfold wrapInt. f_equal.
  set (m := 2 ^ intBits).
  assert (Hm : m <> 0) by (unfold m, intBits; lia).
  replace (((a - minInt) mod m + minInt) * b - minInt)
    with ((a - minInt) mod m * b + (minInt * b - minInt)) by ring.
  replace (a * b - minInt)
    with ((a - minInt) * b + (minInt * b - minInt)) by ring.
  rewrite (Z.add_mod ((a - minInt) mod m * b)) by exact Hm.
  rewrite (Z.add_mod ((a - minInt) * b)) by exact Hm.
  rewrite Z.mul_mod_idemp_l by exact Hm. reflexivity.
Qed.

(* ===================================================================== *)
(** ** Pagination *)
(* ===================================================================== *)

(** The requested page with every value below 1, and an absent page,
    taken as 1. *)
Definition clampedPage (findFilter : FindFilterType) : Z :=
  match Page findFilter with
  | None => 1
  | Some p => Z.max 1 p
  end.

(** The requested page size brought into [1, 120]; 25 when absent. *)
Definition clampedPerPage (findFilter : FindFilterType) : Z :=
  match PerPage findFilter with
  | None => 25
  | Some n => Z.max 1 (Z.min 120 n)
  end.

(** The fragment as the design document words it, with the product taken
    in the integers. *)
Definition claimedPagination (findFilter : FindFilterType) : string :=
  " LIMIT " ++ Itoa (clampedPerPage findFilter)
  ++ " OFFSET " ++ Itoa ((clampedPage findFilter - 1) * clampedPerPage findFilter)
  ++ " ".

(** A request for page 2^62 + 1 with four items a page. *)
Definition farPageFilter : FindFilterType :=
  {| Q := None; Page := Some (2 ^ 62 + 1); PerPage := Some 4;
     Sort := None; Direction := None |}.

Lemma clampedPerPage_range (findFilter : FindFilterType) :
  1 <= clampedPerPage findFilter <= 120.
Proof. unfold clampedPerPage. destruct (PerPage findFilter); lia. Qed.

Lemma clampedPage_positive (findFilter : FindFilterType) :
  1 <= clampedPage findFilter.
Proof. unfold clampedPage. destruct (Page findFilter); lia. Qed.

Lemma getPagination_clamped (findFilter : FindFilterType) :
  getPagination (Some findFilter) =
  ret (" LIMIT " ++ Itoa (clampedPerPage findFilter) ++ " OFFSET "
       ++ Itoa (wrapInt ((clampedPage findFilter - 1) * clampedPerPage findFilter))
       ++ " ").
Proof.
  unfold getPagination, clampedPage, clampedPerPage.
  rewrite wrapInt_mul_l.
  assert (Hp : match Page findFilter with
               | Some p => if (p <? 1)%Z then 1 else p
               | None => 1
               end
               = match Page findFilter with
                 | Some p => Z.max 1 p
                 | None => 1
                 end).
  { destruct (Page findFilter) as [p|]; [|reflexivity].
    destruct (Z.ltb_spec p 1); lia. }
  rewrite Hp. clear Hp.
  assert (Hn : (let perPage := match PerPage findFilter with
                               | Some n => n
                               | None => 25
                               end in
                if (perPage >? 120)%Z then 120
                else if (perPage <? 1)%Z then 1 else perPage)
               = match PerPage findFilter with
                 | Some n => Z.max 1 (Z.min 120 n)
                 | None => 25
                 end).
  { destruct (PerPage findFilter) as [n|]; [|reflexivity]. cbv zeta.
    rewrite Z.gtb_ltb.
    destruct (Z.ltb_spec 120 n); [lia|].
    destruct (Z.ltb_spec n 1); lia. }
  cbv zeta in Hn. rewrite Hn. reflexivity.
Qed.

(** C3, as amended.  For every find filter the pagination fragment is
    LIMIT perPage OFFSET offset, where perPage is the requested page size
    clamped into [1, 120] (25 when absent), page is the requested page with
    every value below 1 and an absent page taken as 1, and offset is
    (page - 1) * perPage when that product fits an int and its 64-bit
    wrap-around otherwise; the page size is never below 1 nor above 120. *)
Theorem getPagination_resolved (findFilter : FindFilterType) :
  let page := clampedPage findFilter in
  let perPage := clampedPerPage findFilter in
  let offset := if ((page - 1) * perPage <=? maxInt)%Z
                then (page - 1) * perPage
                else wrapInt ((page - 1) * perPage) in
  run (getPagination (Some findFilter))
  = (Returned (" LIMIT " ++ Itoa perPage ++ " OFFSET " ++ Itoa offset ++ " "), [])
  /\ 1 <= perPage <= 120
  /\ 1 <= page.
Proof.
  cbv zeta.
  pose proof (clampedPerPage_range findFilter) as Hn.
  pose proof (clampedPage_positive findFilter) as Hp.
  split; [|split; assumption].
  rewrite getPagination_clamped. unfold run, ret.
  destruct (Z.leb_spec ((clampedPage findFilter - 1) * clampedPerPage findFilter) maxInt)
    as [Hfit|Hover]; [|reflexivity].
  rewrite wrapInt_inInt; [reflexivity|].
  unfold inInt. split; [|exact Hfit].
  unfold minInt, intBits. nia.
Qed.

(** C3, the claim as worded fails: on page 2^62 + 1 with four items a page
    the product (page - 1) * perPage is 2^64, and the fragment carries the
    wrapped offset 0. *)
Lemma getPagination_offset_wraps :
  inInt (2 ^ 62 + 1)
  /\ run (getPagination (Some farPageFilter)) = (Returned " LIMIT 4 OFFSET 0 ", [])
  /\ claimedPagination farPageFilter = " LIMIT 4 OFFSET 18446744073709551616 "
  /\ run (getPagination (Some farPageFilter))
     <> (Returned (claimedPagination farPageFilter), []).
Proof.
  split; [unfold inInt, minInt, maxInt, intBits; lia|].
  split; [vm_compute; reflexivity|].
  split; [vm_compute; reflexivity|].
  vm_compute. discriminate.
Qed.

(* ===================================================================== *)
(** ** Criterion modifiers *)
(* ===================================================================== *)

(** The comma-separated placeholders of an IN list. *)
Definition placeholders (n : nat) : string :=
  GoStrings.Join (repeat "?" n) ", ".

Fixpoint countPlaceholders (s : string) : nat :=
  match s with
  | EmptyString => O
  | String c rest =>
      ((if Ascii.eqb c "?"%char then 1 else 0) + countPlaceholders rest)%nat
  end.

(** The size of the value collection of a criterion; a value that is no
    collection counts as one. *)
Definition valueSize (value : criterionValue) : nat :=
  match value with
  | ValStrings x => List.length x
  | ValInts x => List.length x
  | ValOther => 1%nat
  end.

Definition knownModifiers : list string :=
  ["EQUALS"; "NOT_EQUALS"; "GREATER_THAN"; "LESS_THAN"; "IS_NULL"; "NOT_NULL";
   "INCLUDES"; "EXCLUDES"].

(** Modelled from the spec: the modifier enumeration, its [IsValid] method
    accepting the eight comparison operators named there and nothing else;
    the generated models that declare it are not among the files at hand. *)
Definition specIsValid (modifier : string) : bool :=
  existsb (String.eqb modifier) knownModifiers.

Lemma placeholders_succ (n : nat) :
  placeholders (S n)
  = "?" ++ match n with O => "" | S _ => ", " ++ placeholders n end.
Proof. destruct n; reflexivity. Qed.

Lemma TrimRight_Repeat_bindings (n : nat) :
  GoStrings.TrimRight (GoStrings.Repeat "?, " n) ", " = placeholders n.
Proof.
  induction n as [|n IH]; [reflexivity|].
  rewrite placeholders_succ.
  change (GoStrings.Repeat "?, " (S n))
    with (String "?" (String "," (String " " (GoStrings.Repeat "?, " n)))).
  cbn [GoStrings.TrimRight]. rewrite IH.
  destruct n as [|n]; [reflexivity|].
  rewrite placeholders_succ. reflexivity.
Qed.

Lemma countPlaceholders_placeholders (n : nat) :
  countPlaceholders (placeholders n) = n.
Proof.
  induction n as [|n IH]; [reflexivity|].
  rewrite placeholders_succ. destruct n as [|n]; [reflexivity|].
  cbn [String.append countPlaceholders]. rewrite IH. reflexivity.
Qed.

Lemma getInBinding_placeholders (n : nat) :
  getInBinding (Z.of_nat n) = ret ("(" ++ placeholders n ++ ")").
Proof.
  unfold getInBinding.
  destruct (Z.ltb_spec (Z.of_nat n) 0) as [Hneg|_]; [lia|].
  rewrite Nat2Z.id, TrimRight_Repeat_bindings. reflexivity.
Qed.

Lemma valueSize_length (value : criterionValue) :
  match value with
  | ValStrings x => Z.of_nat (List.length x)
  | ValInts x => Z.of_nat (List.length x)
  | ValOther => 1
  end = Z.of_nat (valueSize value).
Proof. destruct value; reflexivity. Qed.

Section CriterionFacts.

Variable CriterionModifier : Type.
Variable ModifierString : CriterionModifier -> string.
Variable IsValid : CriterionModifier -> bool.

Lemma binding_of_valid (m : CriterionModifier) (value : criterionValue) :
  IsValid m = true ->
  getCriterionModifierBinding ModifierString IsValid m value =
  let name := ModifierString m in
  let n := valueSize value in
  if String.eqb name "EQUALS" then ret ("= ?", 1)
  else if String.eqb name "NOT_EQUALS" then ret ("!= ?", 1)
  else if String.eqb name "GREATER_THAN" then ret ("> ?", 1)
  else if String.eqb name "LESS_THAN" then ret ("< ?", 1)
  else if String.eqb name "IS_NULL" then ret ("IS NULL", 0)
  else if String.eqb name "NOT_NULL" then ret ("IS NOT NULL", 0)
  else if String.eqb name "INCLUDES"
       then ret ("IN (" ++ placeholders n ++ ")", Z.of_nat n)
  else if String.eqb name "EXCLUDES"
       then ret ("NOT IN (" ++ placeholders n ++ ")", Z.of_nat n)
  else (Errorf "todo" [] [] ;;; ret ("= ?", 1))%go.
Proof.
  intros Hvalid. cbv zeta.
  unfold getCriterionModifierBinding, getSimpleCriterionClause, isSimpleModifier.
  rewrite Hvalid, valueSize_length, getInBinding_placeholders.
  cbn [existsb].
  repeat match goal with
         | |- context [String.eqb (ModifierString m) ?lit] =>
             destruct (String.eqb (ModifierString m) lit); cbn [orb]; try reflexivity
         end.
Qed.

(** C4, as amended.  The rendering of a criterion modifier is total: for a
    valid modifier EQUALS gives = ? with 1 argument, NOT_EQUALS gives != ?
    with 1, GREATER_THAN gives > ? with 1, LESS_THAN gives < ? with 1,
    IS_NULL gives IS NULL with 0, NOT_NULL gives IS NOT NULL with 0,
    INCLUDES and EXCLUDES give IN and NOT IN over exactly as many
    placeholders, and arguments, as the value collection has members; any
    other valid modifier falls back to = ? with 1 argument and is logged;
    an invalid modifier falls back to = ? with 1 argument and nothing is
    logged.  No case is an error. *)
Theorem criterion_modifier_rendering (m : CriterionModifier) (value : criterionValue) :
  let rendered := run (getCriterionModifierBinding ModifierString IsValid m value) in
  let name := ModifierString m in
  let n := valueSize value in
  (IsValid m = true ->
     (name = "EQUALS" -> rendered = (Returned ("= ?", 1), []))
     /\ (name = "NOT_EQUALS" -> rendered = (Returned ("!= ?", 1), []))
     /\ (name = "GREATER_THAN" -> rendered = (Returned ("> ?", 1), []))
     /\ (name = "LESS_THAN" -> rendered = (Returned ("< ?", 1), []))
     /\ (name = "IS_NULL" -> rendered = (Returned ("IS NULL", 0), []))
     /\ (name = "NOT_NULL" -> rendered = (Returned ("IS NOT NULL", 0), []))
     /\ (name = "INCLUDES" ->
         rendered = (Returned ("IN (" ++ placeholders n ++ ")", Z.of_nat n), []))
     /\ (name = "EXCLUDES" ->
         rendered = (Returned ("NOT IN (" ++ placeholders n ++ ")", Z.of_nat n), []))
     /\ (~ In name knownModifiers ->
         rendered = (Returned ("= ?", 1), [EvErrorf "todo" [] []])))
  /\ (IsValid m = false -> rendered = (Returned ("= ?", 1), []))
  /\ countPlaceholders (placeholders n) = n.
Proof.
  cbv zeta. split; [|split].
  - intros Hvalid. rewrite (binding_of_valid value Hvalid). cbv zeta.
    repeat split; intros Hname;
      try (rewrite Hname; reflexivity).
    assert (Hno : forall lit, In lit knownModifiers ->
                              String.eqb (ModifierString m) lit = false).
    { intros lit Hin. apply String.eqb_neq. intros Heq. apply Hname.
      rewrite Heq. exact Hin. }
    rewrite !Hno by (simpl; tauto). reflexivity.
  - intros Hinvalid. unfold getCriterionModifierBinding.
    rewrite Hinvalid. reflexivity.
  - apply countPlaceholders_placeholders.
Qed.

End CriterionFacts.

(** C4, an instance: INCLUDES over three strings. *)
Lemma criterion_modifier_rendering_includes :
  run (getCriterionModifierBinding (fun m : string => m) specIsValid "INCLUDES"
         (ValStrings ["a"; "b"; "c"]))
  = (Returned ("IN (?, ?, ?)", 3), []).
Proof.
  pose proof (criterion_modifier_rendering (fun m : string => m) specIsValid
                "INCLUDES" (ValStrings ["a"; "b"; "c"])) as H.
  cbv zeta in H. destruct H as [H _]. specialize (H eq_refl).
  destruct H as (_ & _ & _ & _ & _ & _ & H & _).
  exact (H eq_refl).
Defined.

(** C4, the claim as worded fails: a modifier that is not valid falls back
    to = ? with 1 argument, yet nothing is logged. *)
Lemma invalid_modifier_is_not_logged :
  specIsValid "BOGUS" = false
  /\ run (getCriterionModifierBinding (fun m : string => m) specIsValid "BOGUS" ValOther)
     = (Returned ("= ?", 1), [])
  /\ ~ In (EvErrorf "todo" [] [])
          (snd (run (getCriterionModifierBinding (fun m : string => m) specIsValid
                       "BOGUS" ValOther))).
Proof.
  split; [reflexivity|]. split; [reflexivity|].
  simpl. tauto.
Qed.

(* ===================================================================== *)
(** ** Search clauses *)
(* ===================================================================== *)

(** *** Loops that append *)

Lemma forRange_append {A B : Type} (f : A -> B) (xs : list A) (init : list B) :
  forRange xs (fun acc x => append acc (f x)) init = (init ++ map f xs)%list.
Proof.
  unfold forRange, append. revert init.
  induction xs as [|x xs IH]; intros init; simpl.
  - now rewrite app_nil_r.
  - rewrite IH, <- app_assoc. reflexivity.
Qed.

Lemma forRange_append2 {A B C : Type} (f : A -> B) (g : A -> C) (xs : list A)
    (init : list B * list C) :
  forRange xs (fun '(bs, cs) x => (append bs (f x), append cs (g x))) init
  = ((fst init ++ map f xs)%list, (snd init ++ map g xs)%list).
Proof.
  unfold forRange, append. revert init.
  induction xs as [|x xs IH]; intros [bs cs]; simpl.
  - now rewrite !app_nil_r.
  - rewrite IH. simpl. rewrite <- !app_assoc. reflexivity.
Qed.

Lemma forRange_nested2 {W A B C : Type} (f : W -> A -> B) (g : W -> A -> C)
    (ws : list W) (xs : list A) (init : list B * list C) :
  forRange ws (fun acc w =>
    forRange xs (fun '(bs, cs) x => (append bs (f w x), append cs (g w x))) acc) init
  = ((fst init ++ flat_map (fun w => map (f w) xs) ws)%list,
     (snd init ++ flat_map (fun w => map (g w) xs) ws)%list).
Proof.
  revert init. induction ws as [|w ws IH]; intros [bs cs].
  - unfold forRange. simpl. now rewrite !app_nil_r.
  - unfold forRange in *. cbn [fold_left flat_map].
    pose proof (forRange_append2 (f w) (g w) xs (bs, cs)) as Hin.
    unfold forRange in Hin. rewrite Hin. rewrite IH. simpl.
    rewrite <- !app_assoc. reflexivity.
Qed.

Lemma flat_map_singleton {A B : Type} (h : A -> list B) (a : A) :
  flat_map h [a] = h a.
Proof. simpl. apply app_nil_r. Qed.

(** *** When [Trim] changes a string *)

Definition firstInCutset (s cutset : string) : bool :=
  match s with
  | EmptyString => false
  | String c _ => GoStrings.inCutset c cutset
  end.

Fixpoint lastInCutset (s cutset : string) : bool :=
  match s with
  | EmptyString => false
  | String c EmptyString => GoStrings.inCutset c cutset
  | String _ rest => lastInCutset rest cutset
  end.

(** The query begins or ends with a quotation mark. *)
Definition touchesQuote (q : string) : bool :=
  firstInCutset q dquote || lastInCutset q dquote.

(** The query is wrapped in quotation marks: one in front and one behind. *)
Definition wrappedInQuotes (q : string) : bool :=
  match q with
  | String _ (String _ _) => firstInCutset q dquote && lastInCutset q dquote
  | _ => false
  end.

Lemma TrimLeft_length (s cutset : string) :
  (String.length (GoStrings.TrimLeft s cutset) <= String.length s)%nat.
Proof.
  induction s as [|c s IH]; simpl; [lia|].
  destruct (GoStrings.inCutset c cutset); simpl; lia.
Qed.

Lemma TrimRight_length (s cutset : string) :
  (String.length (GoStrings.TrimRight s cutset) <= String.length s)%nat.
Proof.
  induction s as [|c s IH]; simpl; [lia|].
  destruct (GoStrings.TrimRight s cutset) as [|d kept]; simpl in *.
  - destruct (GoStrings.inCutset c cutset); simpl; lia.
  - lia.
Qed.

Lemma TrimRight_fixed (s cutset : string) :
  GoStrings.TrimRight s cutset = s <-> lastInCutset s cutset = false.
Proof.
  induction s as [|c s IH]; simpl; [tauto|].
  destruct s as [|d s].
  - simpl. destruct (GoStrings.inCutset c cutset); split; congruence.
  - destruct (GoStrings.TrimRight (String d s) cutset) as [|e kept] eqn:Hkept.
    + split.
      * intros H. destruct (GoStrings.inCutset c cutset); discriminate.
      * intros H. apply IH in H. discriminate.
    + rewrite <- IH. split; congruence.
Qed.

Lemma Trim_fixed (s cutset : string) :
  String.eqb (GoStrings.Trim s cutset) s
  = negb (firstInCutset s cutset || lastInCutset s cutset).
Proof.
  unfold GoStrings.Trim. destruct s as [|c s]; [reflexivity|].
  cbn [GoStrings.TrimLeft firstInCutset].
  destruct (GoStrings.inCutset c cutset) eqn:Hc.
  - cbn [orb negb]. apply String.eqb_neq. intros Heq.
    pose proof (TrimRight_length (GoStrings.TrimLeft s cutset) cutset) as H1.
    pose proof (TrimLeft_length s cutset) as H2.
    rewrite Heq in H1. simpl in H1. lia.
  - cbn [orb].
    destruct (lastInCutset (String c s) cutset) eqn:Hlast; cbn [negb].
    + apply String.eqb_neq. intros Heq. apply TrimRight_fixed in Heq. congruence.
    + apply String.eqb_eq. now apply TrimRight_fixed.
Qed.

(** *** The clause builder *)

(** The texts searched for: the query without its leading and trailing
    quotation marks when it has any, its pieces between single spaces
    otherwise. *)
Definition searchTerms (q : string) : list string :=
  if touchesQuote q then [GoStrings.Trim q dquote] else GoStrings.Split q " ".

(** One clause and one bound argument for every pair of a term and a
    column, terms outermost. *)
Definition searchClauses (columns terms : list string) (not : bool) : list string :=
  flat_map (fun _ : string =>
              map (fun column => column ++ (if not then " NOT  LIKE ?" else " LIKE ?"))
                  columns) terms.

Definition searchArgs (columns terms : list string) : list arg :=
  flat_map (fun term => map (fun _ : string => ArgString ("%" ++ term ++ "%")) columns)
           terms.

Definition searchBindingOver (columns terms : list string) (not : bool)
  : string * list arg :=
  ("(" ++ GoStrings.Join (searchClauses columns terms not)
                         (if not then " AND " else " OR ") ++ ")",
   searchArgs columns terms).

(** The builder as the design document words it: the phrase when the query
    is wrapped in quotation marks, the words otherwise. *)
Definition claimedSearchBinding (columns : list string) (q : string) (not : bool)
  : string * list arg :=
  searchBindingOver columns
    (if wrappedInQuotes q then [GoStrings.Trim q dquote] else GoStrings.Split q " ")
    not.

Lemma getSearchBinding_over (columns : list string) (q : string) (not : bool) :
  getSearchBinding columns q not = searchBindingOver columns (searchTerms q) not.
Proof.
  unfold getSearchBinding, searchBindingOver, searchTerms, touchesQuote.
  rewrite Trim_fixed.
  destruct (firstInCutset q dquote || lastInCutset q dquote); cbn [negb].
  - pose proof (forRange_append2
                  (fun column : string => column ++ (if not then " NOT " else "") ++ " LIKE ?")
                  (fun _ : string => ArgString ("%" ++ GoStrings.Trim q dquote ++ "%"))
                  columns ([], [])) as Hloop.
    rewrite Hloop. cbn [fst snd app].
    unfold searchClauses, searchArgs. rewrite !flat_map_singleton.
    destruct not; reflexivity.
  - pose proof (forRange_nested2
                  (fun (_ : string) (column : string) =>
                     column ++ (if not then " NOT " else "") ++ " LIKE ?")
                  (fun (word : string) (_ : string) => ArgString ("%" ++ word ++ "%"))
                  (GoStrings.Split q " ") columns ([], [])) as Hloop.
    rewrite Hloop. cbn [fst snd app].
    unfold searchClauses, searchArgs.
    destruct not; reflexivity.
Qed.

Lemma searchClauses_by_count (columns terms terms' : list string) (not : bool) :
  List.length terms = List.length terms' ->
  searchClauses columns terms not = searchClauses columns terms' not.
Proof.
  unfold searchClauses. revert terms'.
  induction terms as [|t ts IH]; intros [|t' ts'] Hlen; try discriminate;
    [reflexivity|].
  cbn [flat_map]. f_equal. apply IH. now injection Hlen.
Qed.

(** The bound builder keeps the search text out of the statement: two
    queries with as many terms give the same statement text. *)
Lemma getSearchBinding_text_by_count (columns : list string) (q q' : string) (not : bool) :
  List.length (searchTerms q) = List.length (searchTerms q') ->
  fst (getSearchBinding columns q not) = fst (getSearchBinding columns q' not).
Proof.
  intros Hlen. rewrite !getSearchBinding_over. unfold searchBindingOver. cbn [fst].
  now rewrite (searchClauses_by_count columns _ _ not Hlen).
Qed.

(** C5, as amended.  For every column list, query string and negation
    flag, the bound search-clause builder produces: when the query begins
    or ends with a quotation mark, one LIKE clause per column bound to
    %phrase%, the phrase being the query without its leading and trailing
    quotation marks; otherwise one LIKE clause per (word, column) pair for
    the query split at every single space, each bound to %word%; in both
    cases the clauses use NOT LIKE and are joined by AND when negated, and
    use LIKE and are joined by OR when not negated. *)
Theorem getSearchBinding_clauses (columns : list string) (q : string) (not : bool) :
  getSearchBinding columns q not = searchBindingOver columns (searchTerms q) not
  /\ List.length (searchClauses columns (searchTerms q) not)
     = (List.length (searchTerms q) * List.length columns)%nat
  /\ List.length (searchArgs columns (searchTerms q))
     = (List.length (searchTerms q) * List.length columns)%nat.
Proof.
  split; [apply getSearchBinding_over|].
  unfold searchClauses, searchArgs.
  induction (searchTerms q) as [|t ts [IH1 IH2]]; [split; reflexivity|].
  cbn [flat_map List.length]. rewrite !length_app, !length_map, IH1, IH2.
  split; lia.
Qed.

(** C5, the claim as worded fails: a query with a quotation mark in front
    and none behind is not wrapped in quotation marks, yet it is searched
    as a phrase with the mark stripped and not as the word it is. *)
Lemma getSearchBinding_one_sided_quote :
  wrappedInQuotes (dquote ++ "foo") = false
  /\ getSearchBinding ["studios.name"] (dquote ++ "foo") false
     = ("(studios.name LIKE ?)", [ArgString "%foo%"])
  /\ claimedSearchBinding ["studios.name"] (dquote ++ "foo") false
     = ("(studios.name LIKE ?)", [ArgString ("%" ++ dquote ++ "foo%")])
  /\ getSearchBinding ["studios.name"] (dquote ++ "foo") false
     <> claimedSearchBinding ["studios.name"] (dquote ++ "foo") false.
Proof.
  split; [reflexivity|]. split; [reflexivity|]. split; [reflexivity|].
  vm_compute. discriminate.
Qed.

(* ===================================================================== *)
(** ** The find operation *)
(* ===================================================================== *)

(** The WHERE part of the shared body: absent without fragments. *)
Definition wherePart (whereClauses : list string) : string :=
  match whereClauses with
  | [] => ""
  | _ => " WHERE " ++ GoStrings.Join whereClauses " AND "
  end.

(** The HAVING part of the shared body: absent without fragments. *)
Definition havingPart (havingClauses : list string) : string :=
  match havingClauses with
  | [] => ""
  | _ => " HAVING " ++ GoStrings.Join havingClauses " AND "
  end.

(** The body both queries of a find are derived from. *)
Definition sharedBody (tableName body : string) (whereClauses havingClauses : list string)
  : string :=
  body ++ wherePart whereClauses
       ++ " GROUP BY " ++ tableName ++ ".id "
       ++ havingPart havingClauses.

Definition isLogEvent (e : event) : bool :=
  match e with
  | EvErrorf _ _ _ => true
  | _ => false
  end.

(** What the count query settles on: no rows counts as zero. *)
Definition settledCount (answer : dbResult Z) : Z + error :=
  match answer with
  | DBOk count => inl count
  | DBErr ErrNoRows => inl 0
  | DBErr e => inr e
  end.

(** What the id query settles on: no rows is the empty list. *)
Definition settledIds (answer : dbResult (list Z)) : list Z + error :=
  match answer with
  | DBOk ids => inl ids
  | DBErr ErrNoRows => inl []
  | DBErr e => inr e
  end.

(** A find through a [queryBuilder] is the find over its fields. *)
Lemma executeFind_fields
    (dbGet : trace -> string -> list arg -> dbResult Z)
    (dbSelect : trace -> string -> list arg -> dbResult (list Z))
    (qb : queryBuilder) :
  executeFind dbGet dbSelect qb
  = executeFindQuery dbGet dbSelect (tableName qb) (body qb) (args qb)
      (sortAndPagination qb) (whereClauses qb) (havingClauses qb).
Proof. reflexivity. Qed.

Lemma addWhere_appends (qb : queryBuilder) (clauses : list string) :
  whereClauses (addWhere qb clauses) = (whereClauses qb ++ clauses)%list
  /\ havingClauses (addWhere qb clauses) = havingClauses qb
  /\ args (addWhere qb clauses) = args qb.
Proof. repeat split. Qed.

Section FindFacts.

Variable dbGet : trace -> string -> list arg -> dbResult Z.
Variable dbSelect : trace -> string -> list arg -> dbResult (list Z).

Variables (tableName body : string) (args : list arg) (sortAndPagination : string).
Variables (whereClauses havingClauses : list string).

Definition theCountQuery : string :=
  buildCountQuery (sharedBody tableName body whereClauses havingClauses).

Definition theIdsQuery : string :=
  sharedBody tableName body whereClauses havingClauses ++ sortAndPagination.

(** The answers of the store to the two queries, in the order asked. *)
Definition countAnswer : dbResult Z := dbGet [] theCountQuery args.

Definition idsAnswer : dbResult (list Z) :=
  dbSelect [EvDBGet theCountQuery args] theIdsQuery args.

Definition theFind : M (list Z * Z) :=
  executeFindQuery dbGet dbSelect tableName body args sortAndPagination
                   whereClauses havingClauses.

Lemma executeFindQuery_body :
  (match havingClauses with
   | [] =>
       match whereClauses with
       | [] => body
       | _ => body ++ " WHERE " ++ GoStrings.Join whereClauses " AND "
       end ++ " GROUP BY " ++ tableName ++ ".id "
   | _ =>
       (match whereClauses with
        | [] => body
        | _ => body ++ " WHERE " ++ GoStrings.Join whereClauses " AND "
        end ++ " GROUP BY " ++ tableName ++ ".id ")
       ++ " HAVING " ++ GoStrings.Join havingClauses " AND "
   end)
  = sharedBody tableName body whereClauses havingClauses.
Proof.
  unfold sharedBody, wherePart, havingPart.
  destruct havingClauses as [|h hs], whereClauses as [|w ws];
    rewrite ?append_assoc, ?append_nil_r; cbn [String.append];
    rewrite ?append_assoc; reflexivity.
Qed.

Lemma executeFindQuery_run :
  run theFind =
  match settledCount countAnswer, settledIds idsAnswer with
  | inl count, inl ids =>
      (Returned (ids, count),
       [EvDBGet theCountQuery args; EvDBSelect theIdsQuery args])
  | inr e, _ =>
      (Panicked (PanicError e),
       [EvDBGet theCountQuery args; EvDBSelect theIdsQuery args;
        EvErrorf "Error executing count query with SQL: %s, args: %v, error: %s"
                 [theCountQuery; errorString e] args])
  | inl _, inr e =>
      (Panicked (PanicError e),
       [EvDBGet theCountQuery args; EvDBSelect theIdsQuery args;
        EvErrorf "Error executing find query with SQL: %s, args: %v, error: %s"
                 [theIdsQuery; errorString e] args])
  end.
Proof.
  unfold theFind, executeFindQuery. cbv zeta.
  rewrite executeFindQuery_body.
  fold theCountQuery. fold theIdsQuery.
  unfold run, bind, runCountQuery, runIdsQuery, DBGet, DBSelect, ask, bind.
  cbn [app]. unfold countAnswer, idsAnswer.
  destruct (dbGet [] theCountQuery args) as [count|[|cmsg]];
    cbn [settledCount isErrNoRows negb ret app];
    destruct (dbSelect [EvDBGet theCountQuery args] theIdsQuery args) as [ids|[|imsg]];
    cbn [settledIds isErrNoRows negb ret app Errorf emit panic];
    rewrite ?map_id; reflexivity.
Qed.

(** C1.  Every find derives its two queries from one body: the base
    projection and joins, the WHERE fragments joined by AND, a GROUP BY on
    the id column of the primary table whatever the fragments are, and the
    HAVING fragments joined by AND.  The count query is SELECT COUNT over
    that body, the id query is that body followed by the sort and
    pagination fragment, both are run with the same argument list, and the
    find asks the store nothing else. *)
Theorem find_queries_share_body :
  exists log,
    snd (run (executeFindQuery dbGet dbSelect tableName body args
                           sortAndPagination whereClauses havingClauses))
    = EvDBGet ("SELECT COUNT(*) as count FROM ("
               ++ sharedBody tableName body whereClauses havingClauses
               ++ ") as temp") args
      :: EvDBSelect (sharedBody tableName body whereClauses havingClauses
                     ++ sortAndPagination) args
      :: log
    /\ forallb isLogEvent log = true.
Proof.
  fold theFind. rewrite executeFindQuery_run.
  destruct (settledCount countAnswer) as [count|e], (settledIds idsAnswer) as [ids|e'];
    eexists; split; reflexivity.
Qed.

(** C6.  A find returns both results or none.  When neither query fails
    other than by finding no rows, the find returns the ids and the count,
    no rows counting as zero and as the empty list; when the count query
    fails otherwise the find panics with that error; when only the id
    query fails otherwise the find panics with that error.  So whatever is
    returned comes from two settled queries. *)
Theorem find_is_all_or_nothing :
  fst (run (executeFindQuery dbGet dbSelect tableName body args
                           sortAndPagination whereClauses havingClauses))
  = match settledCount countAnswer, settledIds idsAnswer with
    | inl count, inl ids => Returned (ids, count)
    | inr e, _ => Panicked (PanicError e)
    | inl _, inr e => Panicked (PanicError e)
    end
  /\ settledCount (DBErr ErrNoRows) = inl 0
  /\ settledIds (DBErr ErrNoRows) = inl []
  /\ (forall msg, settledCount (DBErr (ErrOther msg)) = inr (ErrOther msg))
  /\ (forall msg, settledIds (DBErr (ErrOther msg)) = inr (ErrOther msg))
  /\ (forall ids count,
        fst (run (executeFindQuery dbGet dbSelect tableName body args
                           sortAndPagination whereClauses havingClauses))
        = Returned (ids, count) ->
        settledCount countAnswer = inl count /\ settledIds idsAnswer = inl ids).
Proof.
  fold theFind. rewrite executeFindQuery_run.
  repeat split; try reflexivity;
    destruct (settledCount countAnswer) as [c|e], (settledIds idsAnswer) as [i|e'];
    cbn in *; congruence.
Qed.

End FindFacts.

(* ===================================================================== *)
(** ** The SET clause of a full update *)
(* ===================================================================== *)

(** The column of a field: its [db] tag up to the first comma. *)
Definition columnOf (fld : structField) : string :=
  hd "" (GoStrings.Split (dbTag fld) ",").

(** The convention for a value that was set: a non-empty string, a
    non-zero int or float, a non-zero timestamp, a valid date or null
    wrapper, a pointer or slice that is not nil. *)
Definition nonEmptyValue (v : fieldValue) : bool :=
  match v with
  | FString t => negb (String.eqb t "")
  | FInt t => negb (t =? 0)%Z
  | FFloat64 bits => float64NonZero bits
  | FSQLiteTimestamp t => negb (IsZero t)
  | FSQLiteDate _ valid => valid
  | FNullString _ valid => valid
  | FNullBool _ valid => valid
  | FNullInt64 _ valid => valid
  | FNullFloat64 _ valid => valid
  | FNilable isNil => negb isNil
  | FNotNilable => false
  end.

(** A field the type switch can handle: the id column, or a value of one
    of the kinds of the convention. *)
Definition supportedField (fld : structField) : bool :=
  String.eqb (columnOf fld) "id"
  || match fieldOf fld with
     | FNotNilable => false
     | _ => true
     end.

(** The fields a full update writes. *)
Definition isSet (fld : structField) : bool :=
  negb (String.eqb (columnOf fld) "id") && nonEmptyValue (fieldOf fld).

Definition setColumns (fields : list structField) : list string :=
  map columnOf (filter isSet fields).

(** A studio-like record: id 7, no image, a checksum, a name, no URL, no
    creation time, an update time. *)
Definition sampleStudioFields : list structField :=
  [ {| dbTag := "id"; fieldOf := FInt 7 |};
    {| dbTag := "image"; fieldOf := FNilable true |};
    {| dbTag := "checksum"; fieldOf := FString "c0ffee" |};
    {| dbTag := "name"; fieldOf := FNullString "Foo's Bar" true |};
    {| dbTag := "url"; fieldOf := FNullString "" false |};
    {| dbTag := "created_at"; fieldOf := FSQLiteTimestamp {| sec := 0; nsec := 0 |} |};
    {| dbTag := "updated_at";
       fieldOf := FSQLiteTimestamp {| sec := 63700000000; nsec := 0 |} |} ].

Lemma sqlGenKeys_loop (fields : list structField) (query : list string) (t : trace) :
  forallb supportedField fields = true ->
  forRangeM fields (sqlGenKeysField false) query t
  = (Returned (query ++ map keyBinding (setColumns fields))%list, t).
Proof.
  revert query. induction fields as [|fld fields IH]; intros query Hsup.
  - simpl. unfold ret. now rewrite app_nil_r.
  - cbn [forallb] in Hsup. apply andb_prop in Hsup as [Hfld Hrest].
    cbn [forRangeM]. unfold bind at 1. unfold sqlGenKeysField at 1. cbv zeta.
    unfold setColumns, isSet, supportedField, columnOf in *.
    cbn [filter].
    destruct (String.eqb (hd "" (GoStrings.Split (dbTag fld) ",")) "id") eqn:Hid.
    + cbn [negb andb]. unfold ret at 1. apply IH. exact Hrest.
    + cbn [negb andb orb] in *.
      destruct (fieldOf fld) as [s|z|b|ts|s v|s v|b v|n v|b v|isNil|];
        try discriminate; cbn [nonEmptyValue orb];
        match goal with
        | |- context [if ?c then ret _ else ret _] => destruct c
        end;
        unfold ret at 1; rewrite (IH _ Hrest); unfold append;
        cbn [map]; rewrite <- ?app_assoc; reflexivity.
Qed.

Lemma SQLGenKeys_run (fields : list structField) (t : trace) :
  forallb supportedField fields = true ->
  SQLGenKeys fields t
  = (Returned (GoStrings.Join (map keyBinding (setColumns fields)) ", "), t).
Proof.
  intros Hsup. unfold SQLGenKeys, sqlGenKeys, bind.
  rewrite (sqlGenKeys_loop fields [] t Hsup). reflexivity.
Qed.

Lemma setColumns_spec (fields : list structField) (column : string) :
  In column (setColumns fields) <->
  exists fld, In fld fields /\ columnOf fld = column /\ column <> "id"
              /\ nonEmptyValue (fieldOf fld) = true.
Proof.
  unfold setColumns. rewrite in_map_iff. split.
  - intros (fld & Hcol & Hin). apply filter_In in Hin as [Hin Hset].
    unfold isSet in Hset. apply andb_prop in Hset as [Hid Hval].
    exists fld. repeat split; try assumption.
    subst column. apply String.eqb_neq. now destruct (String.eqb (columnOf fld) "id").
  - intros (fld & Hin & Hcol & Hid & Hval). exists fld. split; [exact Hcol|].
    apply filter_In. split; [exact Hin|]. unfold isSet.
    rewrite Hcol, Hval. apply String.eqb_neq in Hid. now rewrite Hid.
Qed.

Lemma NoDup_map_In_eq {A B : Type} (f : A -> B) (l : list A) (x y : A) :
  NoDup (map f l) -> In x l -> In y l -> f x = f y -> x = y.
Proof.
  induction l as [|a l IH]; intros Hnd Hx Hy Hf; [contradiction|].
  cbn [map] in Hnd. inversion Hnd as [|? ? Hnotin Hnd']; subst.
  destruct Hx as [->|Hx], Hy as [->|Hy].
  - reflexivity.
  - exfalso. apply Hnotin. rewrite Hf. now apply in_map.
  - exfalso. apply Hnotin. rewrite <- Hf. now apply in_map.
  - now apply IH.
Qed.

(** With one field per column, the column of a field whose value is empty
    is not among the columns set. *)
Lemma empty_field_omitted (fields : list structField) (fld : structField) :
  NoDup (map columnOf fields) ->
  In fld fields -> nonEmptyValue (fieldOf fld) = false ->
  ~ In (columnOf fld) (setColumns fields).
Proof.
  intros Hnd Hin Hempty Hset.
  apply setColumns_spec in Hset as (other & Hother & Hcol & _ & Hval).
  assert (other = fld) by (eapply NoDup_map_In_eq; eassumption).
  subst other. congruence.
Qed.

(* ===================================================================== *)
(** ** The studio query builder: transactions and updates *)
(* ===================================================================== *)

Definition updateStatement (fields : list structField) : string :=
  "UPDATE studios SET " ++ GoStrings.Join (map keyBinding (setColumns fields)) ", "
  ++ " WHERE studios.id = :id".

(** Close a goal that asks for the result and the later events of a run
    that has been evaluated. *)
Ltac returned := do 2 eexists; reflexivity.

Section MutationFacts.

Variable Studio : Type.
Variable studioFields : Studio -> list structField.
Variable StudioID : Studio -> Z.
Variable txExec : trace -> Tx -> string -> list arg -> option error.
Variable txNamedExec : trace -> Tx -> string -> Studio -> option error.
Variable txLastInsertId : trace -> Tx -> dbResult Z.
Variable txGet : trace -> Tx -> string -> list arg -> dbResult Studio.

Lemma Create_proceeds (newStudio : Studio) (h : Tx) :
  exists r t,
    run (Create txNamedExec txLastInsertId txGet newStudio (Some h))
    = (Returned r, EvTxNamedExec h createStatement :: t).
Proof.
  unfold run, Create, bind, ensureTx, ret, TxNamedExec, LastInsertId, TxGet,
    withTx, ask.
  cbn [app].
  destruct (txNamedExec [] h createStatement newStudio) as [e|];
    [returned|].
  destruct (txLastInsertId _ h) as [studioID|e];
    [|returned].
  cbn [app].
  destruct (txGet _ h _ _) as [found|e]; returned.
Qed.

Lemma Update_proceeds (updatedStudio : Studio) (h : Tx) :
  forallb supportedField (studioFields updatedStudio) = true ->
  exists r t,
    run (Update studioFields StudioID txNamedExec txGet updatedStudio (Some h))
    = (Returned r,
       EvTxNamedExec h (updateStatement (studioFields updatedStudio)) :: t).
Proof.
  intros Hsup.
  unfold run, Update, bind, ensureTx. unfold ret at 1.
  rewrite (SQLGenKeys_run _ [] Hsup).
  unfold TxNamedExec, TxGet, withTx, ask, ret. cbn [app].
  fold (updateStatement (studioFields updatedStudio)).
  destruct (txNamedExec [] h _ updatedStudio) as [e|];
    [returned|].
  destruct (txGet _ h _ _) as [found|e]; returned.
Qed.

Lemma Destroy_proceeds (id : string) (h : Tx) :
  exists r t,
    run (Destroy txExec id (Some h))
    = (Returned r,
       EvTxExec h "UPDATE scenes SET studio_id = null WHERE studio_id = ?"
                [ArgString id] :: t).
Proof.
  unfold run, Destroy, executeDeleteQuery, bind, TxExec, withTx, ask, ret.
  cbn [app].
  destruct (txExec [] h _ _) as [e|]; [returned|].
  destruct (txExec _ h _ _) as [e|]; returned.
Qed.

(** C7.  Create, update and destroy called with a nil transaction panic
    before anything reaches the store: create and update through the
    explicit check, destroy through the first call on the nil
    transaction.  None returns an error value in that case.  With a
    transaction each one proceeds to its first statement and returns
    (update: for a record whose fields are of the kinds the key generator
    handles). *)
Theorem mutations_require_transaction (studio : Studio) (id : string) :
  run (Create txNamedExec txLastInsertId txGet studio None)
  = (Panicked (PanicString "must use a transaction"), [])
  /\ run (Update studioFields StudioID txNamedExec txGet studio None)
     = (Panicked (PanicString "must use a transaction"), [])
  /\ run (Destroy txExec id None) = (Panicked PanicNilDereference, [])
  /\ (forall h : Tx,
        (exists r t,
            run (Create txNamedExec txLastInsertId txGet studio (Some h))
            = (Returned r, EvTxNamedExec h createStatement :: t))
        /\ (forallb supportedField (studioFields studio) = true ->
            exists r t,
              run (Update studioFields StudioID txNamedExec txGet studio (Some h))
              = (Returned r,
                 EvTxNamedExec h (updateStatement (studioFields studio)) :: t))
        /\ (exists r t,
               run (Destroy txExec id (Some h))
               = (Returned r,
                  EvTxExec h "UPDATE scenes SET studio_id = null WHERE studio_id = ?"
                           [ArgString id] :: t))).
Proof.
  split; [reflexivity|]. split; [reflexivity|]. split; [reflexivity|].
  intros h. split; [apply Create_proceeds|].
  split; [apply Update_proceeds|apply Destroy_proceeds].
Qed.

(** C9.  For a full update of a record whose fields are of the kinds the
    key generator handles, the SET clause lists, in field order, exactly
    the columns whose values are set under the convention, each as
    column=:column; the id column is never among them and, with one field
    per column, the column of a field whose value is empty is left out.
    The update statement carries that clause and names no other column
    to set. *)
Theorem full_update_sets_nonempty_columns (fields : list structField) :
  forallb supportedField fields = true ->
  run (SQLGenKeys fields)
  = (Returned (GoStrings.Join (map keyBinding (setColumns fields)) ", "), [])
  /\ (forall column,
        In column (setColumns fields) <->
        exists fld, In fld fields /\ columnOf fld = column /\ column <> "id"
                    /\ nonEmptyValue (fieldOf fld) = true)
  /\ ~ In "id" (setColumns fields)
  /\ (NoDup (map columnOf fields) ->
      forall fld, In fld fields -> nonEmptyValue (fieldOf fld) = false ->
                  ~ In (columnOf fld) (setColumns fields))
  /\ (forall (studio : Studio) (h : Tx),
        studioFields studio = fields ->
        exists r t,
          run (Update studioFields StudioID txNamedExec txGet studio (Some h))
          = (Returned r,
             EvTxNamedExec h ("UPDATE studios SET "
                              ++ GoStrings.Join (map keyBinding (setColumns fields)) ", "
                              ++ " WHERE studios.id = :id") :: t)).
Proof.
  intros Hsup. split; [apply SQLGenKeys_run; exact Hsup|].
  split; [apply setColumns_spec|].
  split.
  - intros Hin. apply setColumns_spec in Hin as (fld & _ & _ & Hid & _).
    now apply Hid.
  - split.
    + intros Hnd fld Hin Hempty. now apply empty_field_omitted.
    + intros studio h Hfields. subst fields.
      apply Update_proceeds. exact Hsup.
Qed.

End MutationFacts.

(** C7, an instance: a store that accepts every statement, a studio given
    by its fields. *)
Lemma mutations_require_transaction_sample :
  run (Update (fun s : list structField => s) (fun _ => 7)
         (fun _ _ _ _ => None) (fun _ _ _ _ => DBOk sampleStudioFields)
         sampleStudioFields None)
  = (Panicked (PanicString "must use a transaction"), []).
Proof.
  exact (proj1 (proj2
    (mutations_require_transaction (fun s : list structField => s) (fun _ => 7)
       (fun _ _ _ _ => None) (fun _ _ _ _ => None) (fun _ _ => DBOk 1)
       (fun _ _ _ _ => DBOk sampleStudioFields) sampleStudioFields "7"))).
Defined.

(** C9, an instance: the sample record sets checksum, name and update
    time. *)
Lemma full_update_sets_nonempty_columns_sample :
  run (SQLGenKeys sampleStudioFields)
  = (Returned "checksum=:checksum, name=:name, updated_at=:updated_at", []).
Proof.
  exact (proj1
    (full_update_sets_nonempty_columns (fun s : list structField => s) (fun _ => 7)
       (fun _ _ _ _ => None) (fun _ _ _ _ => DBOk sampleStudioFields)
       sampleStudioFields eq_refl)).
Defined.

(* ===================================================================== *)
(** ** The studio query builder: queries *)
(* ===================================================================== *)

(** A computation that only adds events after those it was given. *)
Definition appends {A : Type} (m : M A) : Prop :=
  forall t, exists t', snd (m t) = (t ++ t')%list.

Lemma ret_appends {A : Type} (a : A) : appends (ret a).
Proof. intros t. exists []. simpl. now rewrite app_nil_r. Qed.

Lemma ask_appends {A : Type} (e : event) (answer : trace -> A) :
  appends (ask e answer).
Proof. intros t. exists [e]. reflexivity. Qed.

Lemma panic_appends {A : Type} (p : panicValue) : appends (@panic A p).
Proof. intros t. exists []. simpl. now rewrite app_nil_r. Qed.

Create HintDb appends.
#[local] Hint Resolve ret_appends ask_appends panic_appends : appends.

Lemma bind_appends {A B : Type} (m : M A) (k : A -> M B) :
  appends m -> (forall a, appends (k a)) -> appends (bind m k).
Proof.
  intros Hm Hk t. unfold bind. destruct (Hm t) as [t1 H1].
  destruct (m t) as [[a|p] t']; simpl in H1; subst t'.
  - destruct (Hk a (t ++ t1)%list) as [t2 H2]. exists (t1 ++ t2)%list.
    rewrite H2. now rewrite app_assoc.
  - exists t1. reflexivity.
Qed.

Lemma forRangeM_appends {A S : Type} (xs : list A) (body : S -> A -> M S) (acc : S) :
  (forall acc x, appends (body acc x)) -> appends (forRangeM xs body acc).
Proof.
  intros Hbody. revert acc. induction xs as [|x xs IH]; intros acc; simpl.
  - apply ret_appends.
  - apply bind_appends; [apply Hbody | intros a; apply IH].
Qed.

(** A filter that carries a search text and nothing else. *)
Definition searchFilter (q : string) : FindFilterType :=
  {| Q := Some q; Page := None; PerPage := None; Sort := None; Direction := None |}.

(** Modelled from the spec: the sort key of a filter request, the given
    default when the request has none; the accessor is declared with the
    models, which are not among the files at hand. *)
Definition specGetSort (findFilter : FindFilterType) (defaultSort : string) : string :=
  match Sort findFilter with
  | Some sort => sort
  | None => defaultSort
  end.

(** Modelled from the spec: the sort direction of a filter request, ASC or
    DESC, ASC by default; the accessor is declared with the models, which
    are not among the files at hand. *)
Definition specGetDirection (findFilter : FindFilterType) : string :=
  match Direction findFilter with
  | Some direction =>
      if String.eqb direction "ASC" || String.eqb direction "DESC"
      then direction else "ASC"
  | None => "ASC"
  end.

Section QueryFacts.

Variable Studio : Type.
Variable GetSort : FindFilterType -> string -> string.
Variable GetDirection : FindFilterType -> string.
Variable randomSortString : string.
Variable dbGet : trace -> string -> list arg -> dbResult Z.
Variable dbSelect : trace -> string -> list arg -> dbResult (list Z).
Variable dbQueryx : trace -> string -> list arg -> dbResult (Rows Studio).
Variable txQueryx : trace -> Tx -> string -> list arg -> dbResult (Rows Studio).

(** The where fragments [Query] builds for a filter. *)
Definition studioWhere (findFilter : FindFilterType) : list string :=
  match Q findFilter with
  | Some q => if String.eqb q "" then [] else [getSearch ["studios.name"] q]
  | None => []
  end.

(** The count statement [Query] sends for a filter. *)
Definition studioCountQuery (findFilter : FindFilterType) : string :=
  buildCountQuery
    (sharedBody "studios" (selectDistinctIDs "studios" ++ studioJoin)
                (studioWhere findFilter) []).

(** The sort and pagination fragment [Query] builds for a filter. *)
Definition studioSortAndPagination (findFilter : FindFilterType) : string :=
  getStudioSort GetSort GetDirection randomSortString (Some findFilter)
  ++ " LIMIT " ++ Itoa (clampedPerPage findFilter) ++ " OFFSET "
  ++ Itoa (wrapInt ((clampedPage findFilter - 1) * clampedPerPage findFilter))
  ++ " ".

(** The id statement [Query] sends for a filter. *)
Definition studioIdsQuery (findFilter : FindFilterType) : string :=
  sharedBody "studios" (selectDistinctIDs "studios" ++ studioJoin)
             (studioWhere findFilter) []
  ++ studioSortAndPagination findFilter.

Lemma queryPlan_run (findFilter : FindFilterType) (t : trace) :
  queryPlan GetSort GetDirection randomSortString (Some findFilter) t
  = (Returned {| planBody := selectDistinctIDs "studios" ++ studioJoin;
                 planArgs := [];
                 planSortAndPagination := studioSortAndPagination findFilter;
                 planWhere := studioWhere findFilter;
                 planHaving := [] |}, t).
Proof.
  unfold queryPlan. rewrite getPagination_clamped. unfold bind, ret.
  unfold studioWhere, append, studioSortAndPagination.
  destruct (Q findFilter) as [q|]; [|reflexivity].
  destruct (String.eqb q ""); reflexivity.
Qed.

Lemma queryPlan_nil :
  queryPlan GetSort GetDirection randomSortString None
  = queryPlan GetSort GetDirection randomSortString (Some emptyFindFilter).
Proof. reflexivity. Qed.

Lemma Find_appends (id : Z) :
  appends (Find dbQueryx txQueryx id None).
Proof.
  unfold Find, queryStudio, queryStudios, DBQueryx.
  apply bind_appends.
  - apply bind_appends; [auto with appends|].
    intros [rows|e].
    + destruct (scanRows (scans rows) []); [|auto with appends].
      destruct (rowsErr rows); auto with appends.
    + destruct (negb (isErrNoRows e)); auto with appends.
  - intros [results [e|]]; [auto with appends|].
    destruct results as [[|first rest]|]; auto with appends.
Qed.

(** [Query] after the find: one lookup by id for every id found. *)
Definition hydrate (idsResult : list Z) : M (list (option Studio)) :=
  forRangeM idsResult (fun studios id =>
    f <- Find dbQueryx txQueryx id None ;;
    let '(studio, _) := f in
    ret (append studios studio)) [].

Lemma hydrate_appends (idsResult : list Z) : appends (hydrate idsResult).
Proof.
  apply forRangeM_appends. intros acc id.
  apply bind_appends; [apply Find_appends|].
  intros [studio err]. apply ret_appends.
Qed.

Lemma Query_run (findFilter : FindFilterType) :
  run (Query GetSort GetDirection randomSortString dbGet dbSelect dbQueryx
         txQueryx (Some findFilter))
  = match run (theFind dbGet dbSelect "studios"
                 (selectDistinctIDs "studios" ++ studioJoin) []
                 (studioSortAndPagination findFilter) (studioWhere findFilter) [])
    with
    | (Returned (idsResult, countResult), t) =>
        match hydrate idsResult t with
        | (Returned studios, t') => (Returned (studios, countResult), t')
        | (Panicked p, t') => (Panicked p, t')
        end
    | (Panicked p, t) => (Panicked p, t)
    end.
Proof.
  unfold run, Query.
  unfold bind at 1. rewrite queryPlan_run.
  cbn [planBody planArgs planSortAndPagination planWhere planHaving].
  unfold bind at 1. unfold theFind.
  destruct (executeFindQuery _ _ _ _ _ _ _ _ []) as [[[ids count]|p] t];
    [|reflexivity].
  unfold bind, hydrate, ret. reflexivity.
Qed.

Lemma Query_trace (findFilter : FindFilterType) :
  exists rest,
    snd (run (Query GetSort GetDirection randomSortString dbGet dbSelect dbQueryx
                txQueryx (Some findFilter)))
    = EvDBGet (studioCountQuery findFilter) []
      :: EvDBSelect (studioIdsQuery findFilter) [] :: rest.
Proof.
  rewrite Query_run, executeFindQuery_run.
  unfold theCountQuery, theIdsQuery.
  fold (studioCountQuery findFilter). fold (studioIdsQuery findFilter).
  destruct (settledCount _) as [count|e];
    [destruct (settledIds _) as [ids|e']|];
    try (eexists; reflexivity).
  destruct (hydrate_appends ids
              [EvDBGet (studioCountQuery findFilter) [];
               EvDBSelect (studioIdsQuery findFilter) []]) as [t' Ht'].
  destruct (hydrate ids _) as [[studios|p] t]; simpl in Ht'; subst t;
    eexists; reflexivity.
Qed.

Section StoreAnswers.

(** The store answers every call: the count and id queries settle, and a
    lookup by id never reports that it found no rows. *)
Hypothesis countSettles : forall t q a, exists count, settledCount (dbGet t q a) = inl count.
Hypothesis idsSettle : forall t q a, exists ids, settledIds (dbSelect t q a) = inl ids.
Hypothesis rowsAnswered : forall t q a, dbQueryx t q a <> DBErr ErrNoRows.

Lemma Find_returns (id : Z) (t : trace) :
  exists r t', Find dbQueryx txQueryx id None t = (Returned r, t').
Proof.
  unfold Find, queryStudio, queryStudios, DBQueryx, ask, bind.
  destruct (dbQueryx t _ _) as [rows|[|msg]] eqn:Hrows.
  - destruct (scanRows (scans rows) []) as [studios|e];
      [destruct (rowsErr rows) as [e|]; [|destruct studios]|];
      do 2 eexists; reflexivity.
  - exfalso. exact (rowsAnswered Hrows).
  - do 2 eexists; reflexivity.
Qed.

Lemma hydrate_loop_returns (idsResult : list Z) (acc : list (option Studio)) (t : trace) :
  exists r t',
    forRangeM idsResult (fun studios id =>
      f <- Find dbQueryx txQueryx id None ;;
      let '(studio, _) := f in
      ret (append studios studio)) acc t = (Returned r, t').
Proof.
  revert acc t. induction idsResult as [|id ids IH]; intros acc t.
  - do 2 eexists; reflexivity.
  - cbn [forRangeM]. unfold bind at 1. unfold bind at 1.
    destruct (Find_returns id t) as ([studio err] & t1 & Hfind).
    rewrite Hfind. unfold ret at 1. apply IH.
Qed.

Lemma Query_returns (findFilter : FindFilterType) :
  exists r,
    fst (run (Query GetSort GetDirection randomSortString dbGet dbSelect dbQueryx
                txQueryx (Some findFilter))) = Returned r.
Proof.
  rewrite Query_run, executeFindQuery_run.
  destruct (countSettles [] (theCountQuery "studios"
              (selectDistinctIDs "studios" ++ studioJoin)
              (studioWhere findFilter) []) []) as [count Hcount].
  unfold countAnswer. rewrite Hcount.
  destruct (idsSettle [EvDBGet (theCountQuery "studios"
              (selectDistinctIDs "studios" ++ studioJoin)
              (studioWhere findFilter) []) []]
              (theIdsQuery "studios" (selectDistinctIDs "studios" ++ studioJoin)
                 (studioSortAndPagination findFilter) (studioWhere findFilter) [])
              []) as [ids Hids].
  unfold idsAnswer. rewrite Hids.
  unfold hydrate.
  destruct (hydrate_loop_returns ids [] [EvDBGet
              (theCountQuery "studios" (selectDistinctIDs "studios" ++ studioJoin)
                 (studioWhere findFilter) []) [];
            EvDBSelect
              (theIdsQuery "studios" (selectDistinctIDs "studios" ++ studioJoin)
                 (studioSortAndPagination findFilter) (studioWhere findFilter) [])
              []]) as (r & t' & Hloop).
  rewrite Hloop. eexists. reflexivity.
Qed.

End StoreAnswers.

(** C8, the code against the claim: a search of the studios for a and a
    search for b, one word each, reach the store as two different
    statement texts with the search text inside them, and with an empty
    argument list. *)
Theorem studio_query_splices_search_text :
  List.length (GoStrings.Split "a" " ") = List.length (GoStrings.Split "b" " ")
  /\ (exists idsQuery rest,
        snd (run (Query GetSort GetDirection randomSortString dbGet dbSelect dbQueryx
                    txQueryx (Some (searchFilter "a"))))
        = EvDBGet ("SELECT COUNT(*) as count FROM (SELECT DISTINCT studios.id FROM studios "
                   ++ studioJoin
                   ++ " WHERE (studios.name LIKE '%a%') GROUP BY studios.id ) as temp") []
          :: EvDBSelect idsQuery [] :: rest)
  /\ (exists idsQuery rest,
        snd (run (Query GetSort GetDirection randomSortString dbGet dbSelect dbQueryx
                    txQueryx (Some (searchFilter "b"))))
        = EvDBGet ("SELECT COUNT(*) as count FROM (SELECT DISTINCT studios.id FROM studios "
                   ++ studioJoin
                   ++ " WHERE (studios.name LIKE '%b%') GROUP BY studios.id ) as temp") []
          :: EvDBSelect idsQuery [] :: rest)
  /\ studioCountQuery (searchFilter "a") <> studioCountQuery (searchFilter "b").
Proof.
  split; [reflexivity|].
  split; [destruct (Query_trace (searchFilter "a")) as [rest H];
          do 2 eexists; exact H|].
  split; [destruct (Query_trace (searchFilter "b")) as [rest H];
          do 2 eexists; exact H|].
  vm_compute. discriminate.
Qed.

(** C10.  [Query] with a nil filter runs as with a fresh empty filter: it
    sends the unfiltered count and id statements, sorted by name without
    regard to case, ascending, page 1 of 25, and when the store answers it
    returns; the pagination resolver alone panics on a nil filter.  The
    two accessors of the filter are taken to give the default key and ASC
    for an empty filter. *)
Theorem Query_with_nil_filter :
  GetSort emptyFindFilter "name" = "name" ->
  GetDirection emptyFindFilter = "ASC" ->
  (forall t q a, exists count, settledCount (dbGet t q a) = inl count) ->
  (forall t q a, exists ids, settledIds (dbSelect t q a) = inl ids) ->
  (forall t q a, dbQueryx t q a <> DBErr ErrNoRows) ->
  run (Query GetSort GetDirection randomSortString dbGet dbSelect dbQueryx txQueryx None)
  = run (Query GetSort GetDirection randomSortString dbGet dbSelect dbQueryx txQueryx
           (Some emptyFindFilter))
  /\ (exists rest,
        snd (run (Query GetSort GetDirection randomSortString dbGet dbSelect dbQueryx
                    txQueryx None))
        = EvDBGet ("SELECT COUNT(*) as count FROM (SELECT DISTINCT studios.id FROM studios "
                   ++ studioJoin ++ " GROUP BY studios.id ) as temp") []
          :: EvDBSelect ("SELECT DISTINCT studios.id FROM studios "
                         ++ studioJoin ++ " GROUP BY studios.id "
                         ++ " ORDER BY studios.name COLLATE NOCASE ASC"
                         ++ " LIMIT 25 OFFSET 0 ") []
          :: rest)
  /\ (exists r,
        fst (run (Query GetSort GetDirection randomSortString dbGet dbSelect dbQueryx
                    txQueryx None)) = Returned r)
  /\ run (getPagination None)
     = (Panicked (PanicString "nil find filter for pagination"), []).
Proof.
  intros Hsort Hdirection Hcount Hids Hrows.
  assert (Hnil : Query GetSort GetDirection randomSortString dbGet dbSelect dbQueryx
                   txQueryx None
                 = Query GetSort GetDirection randomSortString dbGet dbSelect dbQueryx
                     txQueryx (Some emptyFindFilter)) by reflexivity.
  rewrite Hnil. split; [reflexivity|]. split; [|split; [|reflexivity]].
  - destruct (Query_trace emptyFindFilter) as [rest Htrace].
    exists rest. rewrite Htrace.
    unfold studioIdsQuery, studioSortAndPagination, getStudioSort.
    rewrite Hsort, Hdirection. reflexivity.
  - apply Query_returns; assumption.
Qed.

End QueryFacts.

(** C10, an instance: an empty store, the accessors as the design document
    describes them. *)
Lemma Query_with_nil_filter_sample :
  exists r,
    fst (run (Query specGetSort specGetDirection "0.5"
                (fun _ _ _ => DBOk 0) (fun _ _ _ => DBOk [])
                (fun _ _ _ => DBOk {| scans := @nil (dbResult unit); rowsErr := None |})
                (fun _ _ _ _ => DBOk {| scans := @nil (dbResult unit); rowsErr := None |})
                None)) = Returned r.
Proof.
  refine (proj1 (proj2 (proj2
    (Query_with_nil_filter specGetSort specGetDirection "0.5"
       (fun _ _ _ => DBOk 0) (fun _ _ _ => DBOk [])
       (fun _ _ _ => DBOk {| scans := @nil (dbResult unit); rowsErr := None |})
       (fun _ _ _ _ => DBOk {| scans := @nil (dbResult unit); rowsErr := None |})
       eq_refl eq_refl _ _ _)))).
  - intros t q a. exists 0. reflexivity.
  - intros t q a. exists []. reflexivity.
  - intros t q a. discriminate.
Defined.

(* ===================================================================== *)
(** ** The name-pattern matcher *)
(* ===================================================================== *)

Module MatcherFacts.

Import GoStrings Matcher.

Lemma HasPrefix_spec (s pre : string) :
  HasPrefix s pre = true <-> exists rest, s = pre ++ rest.
Proof.
  revert s. induction pre as [|p pre IH]; intros s.
  - split; [intros _; now exists s | intros _; destruct s; reflexivity].
  - destruct s as [|c s]; cbn [HasPrefix String.append].
    + split; [discriminate | intros [rest H]; discriminate].
    + rewrite andb_true_iff, IH, Ascii.eqb_eq. split.
      * intros [-> [rest ->]]. now exists rest.
      * intros [rest H]. injection H as -> ->. split; [reflexivity | now exists rest].
Qed.

Lemma skipBytes_append (pre rest : string) :
  skipBytes (String.length pre) (pre ++ rest) = rest.
Proof. induction pre as [|p pre IH]; simpl; [reflexivity | exact IH]. Qed.

Lemma endsToken_spec (rest : string) : endsToken rest = true <-> rightFlank rest.
Proof.
  unfold rightFlank. destruct rest as [|c rest]; simpl.
  - split; [now left | reflexivity].
  - split.
    + intros H. right. now exists c, rest.
    + intros [H|(d & back & H & Hd)]; [discriminate|]. now injection H as -> _.
Qed.

(** The left flank seen from inside the scan: the scan is at the start of
    the path, or the byte before is known. *)
Definition leftFlankFrom (atStart : bool) (before : string) : Prop :=
  (before = "" /\ atStart = true)
  \/ exists front c, before = front ++ String c "" /\ isDelimiter c = true.

Lemma leftFlankFrom_cons (atStart : bool) (c : ascii) (before : string) :
  leftFlankFrom atStart (String c before) <-> leftFlankFrom (isDelimiter c) before.
Proof.
  unfold leftFlankFrom. split.
  - intros [[H _]|(front & d & H & Hd)]; [discriminate|].
    destruct front as [|f front]; simpl in H; injection H as -> ->.
    + now left.
    + right. now exists front, d.
  - intros [[-> Hc]|(front & d & -> & Hd)].
    + right. now exists "", c.
    + right. now exists (String c front), d.
Qed.

Lemma containsToken_spec (pattern path : string) (atStart : bool) :
  containsToken atStart pattern path = true <->
  exists before after,
    path = before ++ pattern ++ after
    /\ leftFlankFrom atStart before /\ rightFlank after.
Proof.
  revert atStart. induction path as [|c path IH]; intros atStart.
  - cbn [containsToken]. rewrite orb_false_r, !andb_true_iff, HasPrefix_spec. split.
    + intros [[-> [rest Hrest]] Hend].
      exists "", rest. rewrite Hrest in Hend. rewrite skipBytes_append in Hend.
      repeat split; [exact Hrest | now left | now apply endsToken_spec].
    + intros (before & after & Hpath & Hleft & Hright).
      destruct before as [|b before]; [|discriminate].
      destruct Hleft as [[_ ->]|(front & d & H & _)];
        [|destruct front; discriminate].
      simpl in Hpath. split; [split; [reflexivity | now exists after]|].
      rewrite Hpath, skipBytes_append. now apply endsToken_spec.
  - cbn [containsToken]. rewrite orb_true_iff, !andb_true_iff, HasPrefix_spec, IH.
    split.
    + intros [[[-> [rest Hrest]] Hend]|(before & after & Hpath & Hleft & Hright)].
      * exists "", rest. rewrite Hrest in Hend. rewrite skipBytes_append in Hend.
        repeat split; [exact Hrest | now left | now apply endsToken_spec].
      * exists (String c before), after. simpl. rewrite Hpath.
        repeat split; [now apply leftFlankFrom_cons | exact Hright].
    + intros (before & after & Hpath & Hleft & Hright).
      destruct before as [|b before].
      * left. destruct Hleft as [[_ ->]|(front & d & H & _)];
          [|destruct front; discriminate].
        simpl in Hpath. split; [split; [reflexivity | now exists after]|].
        rewrite Hpath, skipBytes_append. now apply endsToken_spec.
      * right. simpl in Hpath. injection Hpath as -> ->.
        exists before, after. repeat split; [|exact Hright].
        now apply (leftFlankFrom_cons atStart).
Qed.

Lemma leftFlankFrom_start (before : string) :
  leftFlankFrom true before <-> leftFlank before.
Proof. unfold leftFlankFrom, leftFlank. intuition. Qed.

Lemma containsToken_occursAsToken (pattern path : string) :
  containsToken true pattern path = true <-> occursAsToken pattern path.
Proof.
  rewrite containsToken_spec. unfold occursAsToken.
  split; intros (before & after & Hpath & Hleft & Hright);
    exists before, after; repeat split; try assumption;
    now apply leftFlankFrom_start.
Qed.

Lemma splitScan_nonempty (sep : string) (skip : nat) (cur s : string) :
  splitScan sep skip cur s <> [].
Proof.
  revert skip cur. induction s as [|c s IH]; intros skip cur; cbn [splitScan];
    [discriminate|].
  destruct skip; [|apply IH].
  destruct (HasPrefix (String c s) sep); [discriminate | apply IH].
Qed.

Lemma Join_cons (e : string) (rest : list string) (sep : string) :
  rest <> [] -> Join (e :: rest) sep = e ++ sep ++ Join rest sep.
Proof. destruct rest; [congruence | reflexivity]. Qed.

Lemma Join_splitScan_byte (c : ascii) (s cur : string) :
  Join (splitScan (String c "") 0 cur s) (String c "") = cur ++ s.
Proof.
  revert cur. induction s as [|d s IH]; intros cur.
  - simpl. now rewrite append_nil_r.
  - cbn [splitScan HasPrefix String.length Nat.sub].
    replace (HasPrefix s "") with true by (destruct s; reflexivity).
    rewrite andb_true_r. destruct (Ascii.eqb_spec d c) as [->|Hne].
    + rewrite Join_cons by apply splitScan_nonempty. rewrite IH. reflexivity.
    + rewrite IH, append_assoc. reflexivity.
Qed.

(** Replacing the space by itself changes nothing. *)
Lemma ReplaceAll_space_by_space (s : string) : ReplaceAll s " " " " = s.
Proof. unfold ReplaceAll, Split. apply (Join_splitScan_byte " "%char s ""). Qed.

Lemma lowerByte_idempotent (c : ascii) : lowerByte (lowerByte c) = lowerByte c.
Proof.
  destruct c as [[] [] [] [] [] [] [] []]; vm_compute; reflexivity.
Qed.

Lemma ToLower_idempotent (s : string) : ToLower (ToLower s) = ToLower s.
Proof.
  induction s as [|c s IH]; simpl; [reflexivity|].
  now rewrite lowerByte_idempotent, IH.
Qed.

Lemma matches_spec (name path : string) :
  matches name path = true <->
  exists sep, In sep separators
              /\ occursAsToken (ToLower (ReplaceAll name " " sep)) (ToLower path).
Proof.
  unfold matches. rewrite existsb_exists. unfold namePatternSet. split.
  - intros (pattern & Hin & Hcontains).
    apply containsToken_occursAsToken in Hcontains.
    destruct Hin as [<-|[<-|Hin]].
    + exists " ". split; [simpl; tauto|]. now rewrite ReplaceAll_space_by_space.
    + exists " ". split; [simpl; tauto|].
      rewrite ReplaceAll_space_by_space. now rewrite ToLower_idempotent in Hcontains.
    + apply in_map_iff in Hin as (sep & <- & Hsep). now exists sep.
  - intros (sep & Hsep & Hoccurs).
    exists (ReplaceAll name " " sep). split.
    + right. right. apply in_map_iff. now exists sep.
    + now apply containsToken_occursAsToken.
Qed.

Example matches_lower_case : matches "Foo's Bar" "foo's bar.aaa.mp4" = true.
Proof. vm_compute. reflexivity. Qed.

Example matches_in_directory :
  matches "Foo's Bar" "dir/Foo's.Bar/aaa.mp4" = true
  /\ matches "Foo's Bar" "dir\Foo's_Bar\aaa.mp4" = true.
Proof. split; vm_compute; reflexivity. Qed.

Example matches_not_inside_word : matches "Bar" "aaa-Barn.mp4" = false.
Proof. vm_compute. reflexivity. Qed.

(** C2.  [matches] holds exactly when, for one of the recognized
    separators, the name with its spaces rewritten to that separator
    occurs, without regard to case, as one contiguous token of the path:
    before it the start of the path or a separator or path delimiter,
    after it the end of the path or a separator or path delimiter.  With
    the name Foo's Bar the path aaa-Foo's-Bar-bbb.mp4 matches and
    Foo's-aaa-Bar.mp4 does not; the same holds for every path the
    integration test generates as a match and as a decoy. *)
Theorem matches_whole_token (entityName filePath : string) :
  (matches entityName filePath = true <->
   exists sep, In sep separators
               /\ occursAsToken (ToLower (ReplaceAll entityName " " sep))
                                (ToLower filePath))
  /\ matches "Foo's Bar" "aaa-Foo's-Bar-bbb.mp4" = true
  /\ matches "Foo's Bar" "Foo's-aaa-Bar.mp4" = false
  /\ In "aaa-Foo's-Bar-bbb.mp4"
        (AutoTagTest.generateNamePatterns
           (ReplaceAll AutoTagTest.testName " " "-") "-")
  /\ run (AutoTagTest.generateFalseNamePattern AutoTagTest.testName "-")
     = (Returned "Foo's-aaa-Bar.mp4", [])
  /\ forallb (matches AutoTagTest.testName) AutoTagTest.scenePatterns = true
  /\ (exists decoys,
        run AutoTagTest.falseScenePatterns = (Returned decoys, [])
        /\ List.length decoys = 4%nat
        /\ existsb (matches AutoTagTest.testName) decoys = false).
Proof.
  split; [apply matches_spec|].
  split; [vm_compute; reflexivity|].
  split; [vm_compute; reflexivity|].
  split; [vm_compute; tauto|].
  split; [vm_compute; reflexivity|].
  split; [vm_compute; reflexivity|].
  eexists. split; [vm_compute; reflexivity|].
  split; vm_compute; reflexivity.
Qed.

End MatcherFacts.

(* ===================================================================== *)
(** * Further properties of the query builder *)
(* ===================================================================== *)

(** ** Bytes, pieces and placeholders *)

(** The byte [c] occurs in [s]. *)
Fixpoint hasByte (c : ascii) (s : string) : bool :=
  match s with
  | EmptyString => false
  | String d rest => Ascii.eqb d c || hasByte c rest
  end.

Lemma HasPrefix_nil (s : string) : GoStrings.HasPrefix s "" = true.
Proof. destruct s; reflexivity. Qed.

Lemma splitScan_without_separator (c : ascii) (s cur : string) :
  hasByte c s = false ->
  GoStrings.splitScan (String c "") 0 cur s = [cur ++ s].
Proof.
  revert cur. induction s as [|d s IH]; intros cur Hno.
  - simpl. now rewrite append_nil_r.
  - cbn [hasByte] in Hno. apply orb_false_elim in Hno as [Hd Hs].
    cbn [GoStrings.splitScan GoStrings.HasPrefix]. rewrite Hd. cbn [andb].
    rewrite (IH _ Hs), append_assoc. reflexivity.
Qed.

Lemma splitScan_first_piece (c : ascii) (a b cur : string) :
  hasByte c a = false ->
  GoStrings.splitScan (String c "") 0 cur (a ++ String c b)
  = (cur ++ a) :: GoStrings.splitScan (String c "") 0 "" b.
Proof.
  revert cur. induction a as [|d a IH]; intros cur Hno.
  - cbn [String.append GoStrings.splitScan GoStrings.HasPrefix String.length Nat.sub].
    rewrite Ascii.eqb_refl, HasPrefix_nil, append_nil_r. reflexivity.
  - cbn [hasByte] in Hno. apply orb_false_elim in Hno as [Hd Ha].
    cbn [String.append GoStrings.splitScan GoStrings.HasPrefix]. rewrite Hd. cbn [andb].
    rewrite (IH _ Ha), append_assoc. reflexivity.
Qed.

Lemma hasByte_split (c : ascii) (s : string) :
  hasByte c s = true ->
  exists a b, s = a ++ String c b /\ hasByte c a = false.
Proof.
  induction s as [|d s IH]; [discriminate|].
  cbn [hasByte]. destruct (Ascii.eqb_spec d c) as [->|Hne]; cbn [orb].
  - intros _. now exists "", s.
  - intros Hs. destruct (IH Hs) as (a & b & -> & Ha).
    exists (String d a), b. split; [reflexivity|].
    cbn [hasByte]. apply Ascii.eqb_neq in Hne. now rewrite Hne.
Qed.

Lemma Contains_after (a s sub : string) :
  GoStrings.HasPrefix s sub = true -> GoStrings.Contains (a ++ s) sub = true.
Proof.
  intros Hpre. induction a as [|d a IH].
  - destruct s; cbn [String.append GoStrings.Contains]; now rewrite Hpre.
  - cbn [String.append GoStrings.Contains]. rewrite IH. apply orb_true_r.
Qed.

Lemma countPlaceholders_append (a b : string) :
  countPlaceholders (a ++ b) = (countPlaceholders a + countPlaceholders b)%nat.
Proof.
  induction a as [|c a IH]; [reflexivity|].
  cbn [String.append countPlaceholders]. rewrite IH. lia.
Qed.

(* ===================================================================== *)
(** ** Sorting *)
(* ===================================================================== *)

(** The direction [getSort] writes into the statement. *)
Definition sortDirection (direction : string) : string :=
  if String.eqb direction "ASC" || String.eqb direction "DESC"
  then direction else "ASC".

Lemma getSort_direction (randomSortString sort direction tableName : string) :
  getSort randomSortString sort direction tableName
  = getSort randomSortString sort (sortDirection direction) tableName.
Proof.
  unfold getSort, sortDirection.
  destruct (String.eqb_spec direction "ASC") as [->|Hasc]; [reflexivity|].
  destruct (String.eqb_spec direction "DESC") as [->|Hdesc]; reflexivity.
Qed.

(** X1.  Whatever direction is asked for, the ordering fragment is the one
    for ASC or the one for DESC: a direction that is neither is written as
    ASC, so no other direction text reaches the statement. *)
Theorem getSort_only_two_directions
    (randomSortString sort direction tableName : string) :
  direction <> "DESC" ->
  getSort randomSortString sort direction tableName
  = getSort randomSortString sort "ASC" tableName.
Proof.
  intros Hdesc. rewrite getSort_direction. unfold sortDirection.
  destruct (String.eqb_spec direction "ASC") as [->|Hasc]; [reflexivity|].
  apply String.eqb_neq in Hdesc. rewrite Hdesc. reflexivity.
Qed.

Lemma getSort_only_two_directions_sample :
  getSort "0.5" "name" "ASC; DROP TABLE studios" "studios"
  = " ORDER BY studios.name COLLATE NOCASE ASC".
Proof.
  refine (@getSort_only_two_directions "0.5" "name" "ASC; DROP TABLE studios"
            "studios" _).
  discriminate.
Defined.

(** X2.  A sort key made of a relation name without underscore followed by
    _count orders by the number of distinct ids of that relation, whatever
    the primary table is. *)
Theorem getSort_by_relation_count
    (randomSortString relation direction tableName : string) :
  hasByte "_" relation = false ->
  getSort randomSortString (relation ++ "_count") direction tableName
  = " ORDER BY COUNT(distinct " ++ relation ++ ".id) " ++ sortDirection direction.
Proof.
  intros Hno. rewrite getSort_direction. unfold getSort.
  assert (Hdir : negb (String.eqb (sortDirection direction) "ASC")
                 && negb (String.eqb (sortDirection direction) "DESC") = false).
  { unfold sortDirection.
    destruct (String.eqb direction "ASC") eqn:Hasc; cbn [orb].
    - now rewrite Hasc.
    - destruct (String.eqb direction "DESC") eqn:Hdesc.
      + rewrite Hasc, Hdesc. reflexivity.
      + reflexivity. }
  rewrite Hdir.
  rewrite (Contains_after relation "_count" "_count" eq_refl).
  unfold GoStrings.Split.
  change (relation ++ "_count") with (relation ++ String "_" "count").
  rewrite (splitScan_first_piece "_" relation "count" "" Hno).
  cbn [hd]. unfold getColumn. cbn [String.append].
  rewrite !append_assoc. reflexivity.
Qed.

Lemma getSort_by_relation_count_sample :
  getSort "0.5" "scenes_count" "DESC" "studios"
  = " ORDER BY COUNT(distinct scenes.id) DESC".
Proof.
  exact (@getSort_by_relation_count "0.5" "scenes" "DESC" "studios" eq_refl).
Defined.

(* ===================================================================== *)
(** ** Criterion fragments: placeholders against arguments *)
(* ===================================================================== *)


Section CriterionCounts.

Variable CriterionModifier : Type.
Variable ModifierString : CriterionModifier -> string.
Variable IsValid : CriterionModifier -> bool.

Lemma binding_agrees (m : CriterionModifier) (value : criterionValue) :
  exists fragment count log,
    run (getCriterionModifierBinding ModifierString IsValid m value)
    = (Returned (fragment, count), log)
    /\ Z.of_nat (countPlaceholders fragment) = count
    /\ (count = 0 \/ count = 1 \/ count = Z.of_nat (valueSize value))
    /\ forallb isLogEvent log = true.
Proof.
  destruct (IsValid m) eqn:Hvalid.
  - rewrite (@binding_of_valid _ ModifierString IsValid m value Hvalid). cbv zeta.
    repeat match goal with
           | |- context [String.eqb (ModifierString m) ?lit] =>
               destruct (String.eqb (ModifierString m) lit)
           end;
      (do 3 eexists; split; [reflexivity|];
       split; [|split; [tauto | reflexivity]];
       rewrite ?countPlaceholders_append, ?countPlaceholders_placeholders;
       simpl; lia).
  - unfold getCriterionModifierBinding. rewrite Hvalid.
    do 3 eexists. split; [reflexivity|].
    split; [reflexivity|]. split; [tauto | reflexivity].
Qed.

(** X4.  Whatever the modifier and the value are, the rendering returns
    (it neither fails nor panics) and the fragment holds exactly as many
    placeholders as the argument count that comes with it. *)
Theorem criterion_placeholders_match_count
    (m : CriterionModifier) (value : criterionValue) :
  exists fragment count log,
    run (getCriterionModifierBinding ModifierString IsValid m value)
    = (Returned (fragment, count), log)
    /\ Z.of_nat (countPlaceholders fragment) = count.
Proof.
  destruct (binding_agrees m value) as (fragment & count & log & Hrun & Hcount & _).
  now exists fragment, count, log.
Qed.


End CriterionCounts.

Example int_criterion_includes :
  run (getIntCriterionWhereClause (fun m : string => m) specIsValid "scenes.rating"
         {| Value := 3; Modifier := "INCLUDES" |})
  = (Returned ("scenes.rating IN (?)", 1), []).
Proof. reflexivity. Qed.

(* ===================================================================== *)
(** ** Search clauses: placeholders, arguments and the empty column list *)
(* ===================================================================== *)

Lemma forRange_nested {W A B : Type} (f : W -> A -> B)
    (ws : list W) (xs : list A) (init : list B) :
  forRange ws (fun acc w => forRange xs (fun acc x => append acc (f w x)) acc) init
  = (init ++ flat_map (fun w => map (f w) xs) ws)%list.
Proof.
  revert init. induction ws as [|w ws IH]; intros init.
  - unfold forRange. simpl. now rewrite app_nil_r.
  - unfold forRange in *. cbn [fold_left flat_map].
    pose proof (forRange_append (f w) xs init) as Hin.
    unfold forRange in Hin. rewrite Hin, IH, <- app_assoc. reflexivity.
Qed.

(** The clauses of the unbound builder: the term is part of the clause. *)
Definition splicedClauses (columns terms : list string) : list string :=
  flat_map (fun term => map (fun column => column ++ " LIKE '%" ++ term ++ "%'") columns)
           terms.

Lemma getSearch_over (columns : list string) (q : string) :
  getSearch columns q
  = "(" ++ GoStrings.Join (splicedClauses columns (searchTerms q)) " OR " ++ ")".
Proof.
  unfold getSearch, searchTerms, touchesQuote, splicedClauses.
  rewrite Trim_fixed.
  destruct (firstInCutset q dquote || lastInCutset q dquote); cbn [negb].
  - rewrite (forRange_append
               (fun column : string => column ++ " LIKE '%" ++ GoStrings.Trim q dquote ++ "%'")
               columns []).
    rewrite flat_map_singleton. reflexivity.
  - rewrite (forRange_nested
               (fun (word column : string) => column ++ " LIKE '%" ++ word ++ "%'")
               (GoStrings.Split q " ") columns []).
    reflexivity.
Qed.

Lemma flat_map_nothing {A B : Type} (l : list A) :
  flat_map (fun _ : A => @nil B) l = [].
Proof. induction l as [|a l IH]; [reflexivity | exact IH]. Qed.

Lemma Join_counts_clauses (clauses : list string) (sep : string) :
  countPlaceholders sep = 0%nat ->
  (forall clause, In clause clauses -> countPlaceholders clause = 1%nat) ->
  countPlaceholders (GoStrings.Join clauses sep) = List.length clauses.
Proof.
  intros Hsep. induction clauses as [|c rest IH]; intros Hone; [reflexivity|].
  destruct rest as [|d rest].
  - cbn [GoStrings.Join List.length]. apply Hone. now left.
  - change (GoStrings.Join (c :: d :: rest) sep)
      with (c ++ sep ++ GoStrings.Join (d :: rest) sep).
    rewrite !countPlaceholders_append, Hsep, IH.
    + rewrite (Hone c) by now left. cbn [List.length]. lia.
    + intros clause Hin. apply Hone. now right.
Qed.

Lemma searchClauses_one_each (columns terms : list string) (not : bool) (clause : string) :
  (forall column, In column columns -> countPlaceholders column = 0%nat) ->
  In clause (searchClauses columns terms not) -> countPlaceholders clause = 1%nat.
Proof.
  intros Hcols Hin. unfold searchClauses in Hin.
  apply in_flat_map in Hin as (term & _ & Hin).
  apply in_map_iff in Hin as (column & <- & Hcol).
  rewrite countPlaceholders_append, (Hcols column Hcol).
  destruct not; reflexivity.
Qed.

Lemma searchClauses_length (columns terms : list string) (not : bool) :
  List.length (searchClauses columns terms not)
  = List.length (searchArgs columns terms).
Proof.
  unfold searchClauses, searchArgs.
  induction terms as [|t ts IH]; [reflexivity|].
  cbn [flat_map]. rewrite !length_app, !length_map, IH. reflexivity.
Qed.

(** X6.  When no column name holds a question mark, the fragment of the
    bound search builder holds exactly as many placeholders as the
    argument list has members, whatever the query and the negation flag. *)
Theorem getSearchBinding_placeholders_match_args
    (columns : list string) (q : string) (not : bool) :
  (forall column, In column columns -> countPlaceholders column = 0%nat) ->
  countPlaceholders (fst (getSearchBinding columns q not))
  = List.length (snd (getSearchBinding columns q not)).
Proof.
  intros Hcols. rewrite getSearchBinding_over. unfold searchBindingOver. cbn [fst snd].
  rewrite !countPlaceholders_append, Join_counts_clauses.
  - rewrite searchClauses_length. simpl. lia.
  - destruct not; reflexivity.
  - intros clause. now apply searchClauses_one_each.
Qed.

Lemma getSearchBinding_placeholders_match_args_sample :
  countPlaceholders
    (fst (getSearchBinding ["studios.name"; "studios.url"] "foo bar baz" true))
  = 6%nat.
Proof.
  refine (eq_trans
    (@getSearchBinding_placeholders_match_args
       ["studios.name"; "studios.url"] "foo bar baz" true _) eq_refl).
  intros column [<-|[<-|[]]]; reflexivity.
Defined.

(** X7.  With an empty column list both search builders degenerate to an
    empty pair of parentheses, and the bound one to no argument, whatever
    the query is. *)
Theorem search_over_no_column (q : string) (not : bool) :
  getSearch [] q = "()" /\ getSearchBinding [] q not = ("()", []).
Proof.
  split.
  - rewrite getSearch_over. unfold splicedClauses. cbn [map].
    rewrite flat_map_nothing. reflexivity.
  - rewrite getSearchBinding_over. unfold searchBindingOver, searchClauses, searchArgs.
    cbn [map]. rewrite !flat_map_nothing. reflexivity.
Qed.

(* ===================================================================== *)
(** ** Running one query, deleting, destroying *)
(* ===================================================================== *)




Section StoreCalls.

Variable dbGet : trace -> string -> list arg -> dbResult Z.
Variable dbSelect : trace -> string -> list arg -> dbResult (list Z).
Variable txExec : trace -> Tx -> string -> list arg -> option error.


(** X9.  [executeDeleteQuery] without a transaction panics before anything
    reaches the store; with one it sends a single DELETE whose text is
    fixed by the table name, the id going in as the only argument, and
    hands back what the store answers. *)
Theorem executeDeleteQuery_one_statement (tableName id : string) :
  run (executeDeleteQuery txExec tableName id None)
  = (Panicked (PanicString "must use a transaction"), [])
  /\ (forall h : Tx,
        run (executeDeleteQuery txExec tableName id (Some h))
        = (Returned (txExec [] h ("DELETE FROM " ++ tableName ++ " WHERE "
                                  ++ tableName ++ ".id = ?") [ArgString id]),
           [EvTxExec h ("DELETE FROM " ++ tableName ++ " WHERE "
                        ++ tableName ++ ".id = ?") [ArgString id]])).
Proof.
  split; [reflexivity|]. intros h.
  unfold run, executeDeleteQuery, TxExec, withTx, ask, getColumn. cbn [app].
  rewrite !append_assoc. reflexivity.
Qed.






End StoreCalls.

(* ===================================================================== *)
(** ** The key generator: partial records, tags and unsupported kinds *)
(* ===================================================================== *)

(** The fields a partial update writes: every field but the id, a pointer
    or slice only when it is not nil. *)
Definition isSetPartial (fld : structField) : bool :=
  negb (String.eqb (columnOf fld) "id")
  && match fieldOf fld with
     | FNilable isNil => negb isNil
     | FNotNilable => false
     | _ => true
     end.

Definition partialColumns (fields : list structField) : list string :=
  map columnOf (filter isSetPartial fields).


Lemma sqlGenKeysPartial_loop (fields : list structField) (query : list string) (t : trace) :
  forallb supportedField fields = true ->
  forRangeM fields (sqlGenKeysField true) query t
  = (Returned (query ++ map keyBinding (partialColumns fields))%list, t).
Proof.
  revert query. induction fields as [|fld fields IH]; intros query Hsup.
  - simpl. unfold ret. now rewrite app_nil_r.
  - cbn [forallb] in Hsup. apply andb_prop in Hsup as [Hfld Hrest].
    cbn [forRangeM]. unfold bind at 1. unfold sqlGenKeysField at 1. cbv zeta.
    unfold partialColumns, isSetPartial, supportedField, columnOf in *.
    cbn [filter].
    destruct (String.eqb (hd "" (GoStrings.Split (dbTag fld) ",")) "id") eqn:Hid.
    + cbn [negb andb]. unfold ret at 1. apply IH. exact Hrest.
    + cbn [negb andb orb] in *.
      destruct (fieldOf fld) as [s|z|b|ts|s v|s v|b v|n v|b v|isNil|];
        try discriminate; cbn [orb];
        try (destruct isNil; cbn [negb]);
        unfold ret at 1; rewrite (IH _ Hrest); unfold append;
        cbn [map]; rewrite <- ?app_assoc; reflexivity.
Qed.

Lemma isSet_isSetPartial (fld : structField) :
  isSet fld = true -> isSetPartial fld = true.
Proof.
  unfold isSet, isSetPartial. intros H. apply andb_prop in H as [-> Hval].
  destruct (fieldOf fld); cbn in *; congruence.
Qed.

(** X11.  For a record whose fields are of the kinds the key generator
    handles, the partial generator lists every column but the id whose
    field is not a nil pointer or slice, empty values included; every
    column the full generator lists is among them, and the id never is. *)
Theorem partial_update_sets_all_but_nil (fields : list structField) :
  forallb supportedField fields = true ->
  run (SQLGenKeysPartial fields)
  = (Returned (GoStrings.Join (map keyBinding (partialColumns fields)) ", "), [])
  /\ incl (setColumns fields) (partialColumns fields)
  /\ ~ In "id" (partialColumns fields)
  /\ (forall fld, In fld fields -> columnOf fld <> "id" ->
        (forall isNil, fieldOf fld <> FNilable isNil) ->
        In (columnOf fld) (partialColumns fields)).
Proof.
  intros Hsup. split; [|split; [|split]].
  - unfold run, SQLGenKeysPartial, sqlGenKeys, bind.
    rewrite (sqlGenKeysPartial_loop fields [] [] Hsup). reflexivity.
  - intros column Hin. unfold setColumns in Hin. unfold partialColumns.
    apply in_map_iff in Hin as (fld & <- & Hin). apply filter_In in Hin as [Hin Hset].
    apply in_map. apply filter_In. split; [exact Hin | now apply isSet_isSetPartial].
  - unfold partialColumns. intros Hin.
    apply in_map_iff in Hin as (fld & Hcol & Hin). apply filter_In in Hin as [_ Hset].
    unfold isSetPartial in Hset. rewrite Hcol in Hset. discriminate.
  - intros fld Hin Hid Hnil. unfold partialColumns. apply in_map, filter_In.
    split; [exact Hin|]. unfold isSetPartial.
    apply String.eqb_neq in Hid. rewrite Hid. cbn [negb andb].
    assert (Hfld : supportedField fld = true).
    { rewrite forallb_forall in Hsup. now apply Hsup. }
    unfold supportedField in Hfld. rewrite Hid in Hfld. cbn [orb] in Hfld.
    destruct (fieldOf fld) as [s|z|b|ts|s v|s v|b v|n v|b v|isNil|];
      try reflexivity; [|discriminate].
    exfalso. now apply (Hnil isNil).
Qed.

Lemma partial_update_sets_all_but_nil_sample :
  run (SQLGenKeysPartial sampleStudioFields)
  = (Returned
       "checksum=:checksum, name=:name, url=:url, created_at=:created_at, updated_at=:updated_at",
     []).
Proof.
  exact (proj1 (@partial_update_sets_all_but_nil sampleStudioFields eq_refl)).
Defined.







(* ===================================================================== *)
(** ** Looking studios up *)
(* ===================================================================== *)

Lemma scanRows_all_scanned {Studio : Type} (studios acc : list Studio) :
  scanRows (map DBOk studios) acc = inl (acc ++ studios)%list.
Proof.
  revert acc. induction studios as [|s studios IH]; intros acc; cbn [map scanRows].
  - now rewrite app_nil_r.
  - unfold append. rewrite IH, <- app_assoc. reflexivity.
Qed.

Lemma scanRows_first_failure {Studio : Type} (good : list Studio) (e : error)
    (rest : list (dbResult Studio)) (acc : list Studio) :
  scanRows (map DBOk good ++ DBErr e :: rest)%list acc = inr e.
Proof.
  revert acc. induction good as [|s good IH]; intros acc; cbn [map app scanRows].
  - reflexivity.
  - apply IH.
Qed.

Definition findStatement : string := "SELECT * FROM studios WHERE id = ? LIMIT 1".

Section LookupFacts.

Variable Studio : Type.
Variable dbQueryx : trace -> string -> list arg -> dbResult (Rows Studio).
Variable txQueryx : trace -> Tx -> string -> list arg -> dbResult (Rows Studio).

(** The call a lookup makes: through the transaction when there is one. *)
Definition lookupEvent (tx : option Tx) (query : string) (args : list arg) : event :=
  match tx with
  | Some h => EvTxQueryx h query args
  | None => EvDBQueryx query args
  end.

(** What the store answers to it after the events [t]. *)
Definition lookupAnswer (t : trace) (tx : option Tx) (query : string) (args : list arg)
  : dbResult (Rows Studio) :=
  match tx with
  | Some h => txQueryx t h query args
  | None => dbQueryx t query args
  end.

Lemma queryStudio_at (query : string) (args : list arg) (tx : option Tx) (t : trace) :
  queryStudio dbQueryx txQueryx query args tx t
  = (match lookupAnswer t tx query args with
     | DBErr ErrNoRows => Panicked PanicNilDereference
     | DBErr e => Returned (None, Some e)
     | DBOk rows =>
         match scanRows (scans rows) [] with
         | inr e => Returned (None, Some e)
         | inl studios =>
             match rowsErr rows with
             | Some e => Returned (None, Some e)
             | None => Returned (hd_error studios, None)
             end
         end
     end, (t ++ [lookupEvent tx query args])%list).
Proof.
  unfold queryStudio, queryStudios, bind, TxQueryx, DBQueryx, withTx, ask,
    lookupAnswer, lookupEvent.
  destruct tx as [h|].
  - destruct (txQueryx t h query args) as [rows|[|msg]]; cbn [isErrNoRows negb];
      try reflexivity.
    destruct (scanRows (scans rows) []) as [studios|e]; [|reflexivity].
    destruct (rowsErr rows); [reflexivity|]. destruct studios; reflexivity.
  - destruct (dbQueryx t query args) as [rows|[|msg]]; cbn [isErrNoRows negb];
      try reflexivity.
    destruct (scanRows (scans rows) []) as [studios|e]; [|reflexivity].
    destruct (rowsErr rows); [reflexivity|]. destruct studios; reflexivity.
Qed.

(** X14.  A lookup gives the first row when the store answers, every row
    scans and the rows end without error, and neither a studio nor an
    error when there is no row; a row that fails to scan, wherever it
    stands, or an error at the end of the rows gives that error and no
    studio, also when earlier rows had scanned; a failed query gives its
    error; and a query that reports no rows, leaving no row set behind,
    panics on the nil row set. *)
Theorem lookup_gives_first_row_or_error
    (query : string) (args : list arg) (tx : option Tx) :
  (forall studios,
      lookupAnswer [] tx query args
      = DBOk {| scans := map DBOk studios; rowsErr := None |} ->
      fst (run (queryStudio dbQueryx txQueryx query args tx))
      = Returned (hd_error studios, None))
  /\ (forall good e rest rowsError,
         lookupAnswer [] tx query args
         = DBOk {| scans := (map DBOk good ++ DBErr e :: rest)%list;
                   rowsErr := rowsError |} ->
         fst (run (queryStudio dbQueryx txQueryx query args tx))
         = Returned (None, Some e))
  /\ (forall studios e,
         lookupAnswer [] tx query args
         = DBOk {| scans := map DBOk studios; rowsErr := Some e |} ->
         fst (run (queryStudio dbQueryx txQueryx query args tx))
         = Returned (None, Some e))
  /\ (forall msg,
         lookupAnswer [] tx query args = DBErr (ErrOther msg) ->
         fst (run (queryStudio dbQueryx txQueryx query args tx))
         = Returned (None, Some (ErrOther msg)))
  /\ (lookupAnswer [] tx query args = DBErr ErrNoRows ->
      fst (run (queryStudio dbQueryx txQueryx query args tx))
      = Panicked PanicNilDereference).
Proof.
  unfold run. rewrite queryStudio_at. cbn [fst].
  repeat split.
  - intros studios ->. cbn [scans rowsErr].
    rewrite scanRows_all_scanned. reflexivity.
  - intros good e rest rowsError ->. cbn [scans rowsErr].
    rewrite scanRows_first_failure. reflexivity.
  - intros studios e ->. cbn [scans rowsErr].
    rewrite scanRows_all_scanned. reflexivity.
  - intros msg ->. reflexivity.
  - intros ->. reflexivity.
Qed.

(** X15.  Each point lookup asks the store exactly once, with a statement
    text that does not depend on the key: the id, the name or the scene id
    goes in as the only argument.  The lookups by id and by name go
    through the transaction when one is given; the lookup by scene never
    does. *)
Theorem point_lookups_bind_their_key
    (id sceneID : Z) (name : string) (tx : option Tx) :
  snd (run (Find dbQueryx txQueryx id tx))
  = [lookupEvent tx "SELECT * FROM studios WHERE id = ? LIMIT 1" [ArgInt id]]
  /\ snd (run (FindByName dbQueryx txQueryx name tx))
     = [lookupEvent tx "SELECT * FROM studios WHERE name = ? LIMIT 1" [ArgString name]]
  /\ snd (run (FindBySceneID dbQueryx txQueryx sceneID))
     = [EvDBQueryx
          "SELECT studios.* FROM studios JOIN scenes ON studios.id = scenes.studio_id WHERE scenes.id = ? LIMIT 1"
          [ArgInt sceneID]].
Proof.
  unfold run, Find, FindByName, FindBySceneID.
  rewrite !queryStudio_at. repeat split.
Qed.



End LookupFacts.

(* ===================================================================== *)
(** ** Queries: one lookup for every id found *)
(* ===================================================================== *)

Section QueryHydration.

Variable Studio : Type.
Variable GetSort : FindFilterType -> string -> string.
Variable GetDirection : FindFilterType -> string.
Variable randomSortString : string.
Variable dbGet : trace -> string -> list arg -> dbResult Z.
Variable dbSelect : trace -> string -> list arg -> dbResult (list Z).
Variable dbQueryx : trace -> string -> list arg -> dbResult (Rows Studio).
Variable txQueryx : trace -> Tx -> string -> list arg -> dbResult (Rows Studio).




End QueryHydration.


(* ===================================================================== *)
(** ** Creating and updating: what comes back *)
(* ===================================================================== *)

(** A studio-like record on which nothing is set. *)
Definition blankStudioFields : list structField :=
  [ {| dbTag := "id"; fieldOf := FInt 7 |};
    {| dbTag := "image"; fieldOf := FNilable true |};
    {| dbTag := "checksum"; fieldOf := FString "" |};
    {| dbTag := "name"; fieldOf := FNullString "" false |} ].

Section CreateFacts.

Variable Studio : Type.
Variable studioFields : Studio -> list structField.
Variable StudioID : Studio -> Z.
Variable txNamedExec : trace -> Tx -> string -> Studio -> option error.
Variable txLastInsertId : trace -> Tx -> dbResult Z.
Variable txGet : trace -> Tx -> string -> list arg -> dbResult Studio.

(** X17.  With a transaction, [Create] returns either a studio and no
    error or an error and no studio.  When the insert fails nothing else
    is asked of the store.  A studio that is returned is the row read
    back under the id the insert reported, not the record passed in. *)
Theorem Create_returns_row_or_error (newStudio : Studio) (h : Tx) :
  exists result err t,
    run (Create txNamedExec txLastInsertId txGet newStudio (Some h))
    = (Returned (result, err), t)
    /\ ((result <> None /\ err = None) \/ (result = None /\ err <> None))
    /\ (txNamedExec [] h createStatement newStudio <> None ->
        t = [EvTxNamedExec h createStatement])
    /\ (forall created, result = Some created ->
          exists studioID,
            txLastInsertId [EvTxNamedExec h createStatement] h = DBOk studioID
            /\ txGet [EvTxNamedExec h createStatement; EvTxLastInsertId h] h
                     findStatement [ArgInt studioID] = DBOk created).
Proof.
  unfold run, Create, bind, ensureTx, ret, TxNamedExec, LastInsertId, TxGet,
    withTx, ask, findStatement.
  cbn [app].
  destruct (txNamedExec [] h createStatement newStudio) as [e|].
  { do 3 eexists. split; [reflexivity|].
    split; [right; split; [reflexivity | discriminate]|].
    split; [reflexivity | discriminate]. }
  destruct (txLastInsertId _ h) as [studioID|e].
  2:{ do 3 eexists. split; [reflexivity|].
      split; [right; split; [reflexivity | discriminate]|].
      split; [intros H; now contradiction H | discriminate]. }
  cbn [app].
  destruct (txGet _ h _ _) as [found|e] eqn:Hget.
  - do 3 eexists. split; [reflexivity|].
    split; [left; split; [discriminate | reflexivity]|].
    split; [intros H; now contradiction H|].
    intros created Hcreated. injection Hcreated as <-.
    exists studioID. split; [reflexivity | exact Hget].
  - do 3 eexists. split; [reflexivity|].
    split; [right; split; [reflexivity | discriminate]|].
    split; [intros H; now contradiction H | discriminate].
Qed.

(** X18.  A full update of a record on which nothing is set sends an
    UPDATE whose SET clause is empty: the statement text has SET directly
    followed by WHERE. *)
Theorem Update_with_nothing_set (updatedStudio : Studio) (h : Tx) :
  forallb supportedField (studioFields updatedStudio) = true ->
  setColumns (studioFields updatedStudio) = [] ->
  exists r t,
    run (Update studioFields StudioID txNamedExec txGet updatedStudio (Some h))
    = (Returned r,
       EvTxNamedExec h "UPDATE studios SET  WHERE studios.id = :id" :: t).
Proof.
  intros Hsup Hnone.
  destruct (Update_proceeds studioFields StudioID txNamedExec txGet updatedStudio h Hsup)
    as (r & t & Hrun).
  exists r, t. rewrite Hrun. unfold updateStatement. rewrite Hnone. reflexivity.
Qed.

End CreateFacts.

Lemma Update_with_nothing_set_sample :
  exists r t,
    run (Update (fun s : list structField => s) (fun _ => 7)
           (fun _ _ _ _ => None) (fun _ _ _ _ => DBOk blankStudioFields)
           blankStudioFields (Some 1%nat))
    = (Returned r,
       EvTxNamedExec 1%nat "UPDATE studios SET  WHERE studios.id = :id" :: t).
Proof.
  exact (@Update_with_nothing_set (list structField) (fun s => s) (fun _ => 7)
           (fun _ _ _ _ => None) (fun _ _ _ _ => DBOk blankStudioFields)
           blankStudioFields 1%nat eq_refl eq_refl).
Defined.

(* ===================================================================== *)
(** ** Pagination within the range of a GraphQL Int *)
(* ===================================================================== *)

(** X19.  When the requested page is at most 2^31 - 1 the offset never
    wraps: the fragment is LIMIT perPage OFFSET (page - 1) * perPage with
    the product taken in the integers. *)
Theorem getPagination_exact_for_small_pages (findFilter : FindFilterType) :
  (forall p, Page findFilter = Some p -> p <= 2 ^ 31 - 1) ->
  run (getPagination (Some findFilter))
  = (Returned (claimedPagination findFilter), [])
  /\ 0 <= (clampedPage findFilter - 1) * clampedPerPage findFilter <= 120 * (2 ^ 31 - 2).
Proof.
  intros Hsmall.
  pose proof (clampedPerPage_range findFilter) as Hn.
  pose proof (clampedPage_positive findFilter) as Hp.
  assert (Hpage : clampedPage findFilter <= 2 ^ 31 - 1).
  { unfold clampedPage. destruct (Page findFilter) as [p|]; [|lia].
    specialize (Hsmall p eq_refl). lia. }
  assert (Hbound : 0 <= (clampedPage findFilter - 1) * clampedPerPage findFilter
                   <= 120 * (2 ^ 31 - 2)) by nia.
  split; [|exact Hbound].
  rewrite getPagination_clamped. unfold run, ret, claimedPagination.
  rewrite wrapInt_inInt; [reflexivity|].
  unfold inInt, minInt, maxInt, intBits. lia.
Qed.

Lemma getPagination_exact_for_small_pages_sample :
  run (getPagination
         (Some {| Q := None; Page := Some 3; PerPage := Some 40;
                  Sort := None; Direction := None |}))
  = (Returned " LIMIT 40 OFFSET 80 ", []).
Proof.
  refine (proj1 (@getPagination_exact_for_small_pages
                   {| Q := None; Page := Some 3; PerPage := Some 40;
                      Sort := None; Direction := None |} _)).
  intros p Hp. injection Hp as <-. lia.
Defined.

(* ===================================================================== *)
(** ** The decoy path of the integration test *)
(* ===================================================================== *)

(** X20.  The decoy generator needs a name of at least two words: on a
    name without a space it panics with an index out of range; otherwise
    it puts aaa between the first two words, each side joined by the
    separator, and drops any further word. *)
Theorem generateFalseNamePattern_needs_two_words
    (name first second rest separator : string) :
  (hasByte " " name = false ->
     run (AutoTagTest.generateFalseNamePattern name separator)
     = (Panicked PanicIndexOutOfRange, []))
  /\ (hasByte " " first = false -> hasByte " " second = false ->
        run (AutoTagTest.generateFalseNamePattern (first ++ " " ++ second) separator)
        = (Returned (first ++ separator ++ "aaa" ++ separator ++ second ++ ".mp4"), [])
        /\ run (AutoTagTest.generateFalseNamePattern
                  (first ++ " " ++ second ++ " " ++ rest) separator)
           = (Returned (first ++ separator ++ "aaa" ++ separator ++ second ++ ".mp4"),
              [])).
Proof.
  unfold AutoTagTest.generateFalseNamePattern, GoStrings.Split. split.
  - intros Hno. rewrite (splitScan_without_separator " " name "" Hno). reflexivity.
  - intros Hfirst Hsecond. split.
    + change (first ++ " " ++ second) with (first ++ String " " second).
      rewrite (splitScan_first_piece " " first second "" Hfirst).
      rewrite (splitScan_without_separator " " second "" Hsecond). reflexivity.
    + change (first ++ " " ++ second ++ " " ++ rest)
        with (first ++ String " " (second ++ String " " rest)).
      rewrite (splitScan_first_piece " " first _ "" Hfirst).
      rewrite (splitScan_first_piece " " second rest "" Hsecond). reflexivity.
Qed.

(* ===================================================================== *)
(** ** Building a find step by step *)
(* ===================================================================== *)

Section BuilderFacts.

Variable dbGet : trace -> string -> list arg -> dbResult Z.
Variable dbSelect : trace -> string -> list arg -> dbResult (list Z).

(** X21.  The three adders of a query builder each extend their own list
    and leave the rest alone, so adders of different lists commute and
    repeated calls accumulate in call order; a find on the builder then
    runs over the accumulated fragments and arguments, its count
    statement carrying the added WHERE fragments joined by AND after the
    ones already there. *)
Theorem builder_adders_accumulate
    (qb : queryBuilder) (wheres wheres' havings : list string) (new : list arg) :
  addWhere (addHaving (addArg qb new) havings) wheres
  = addArg (addHaving (addWhere qb wheres) havings) new
  /\ addWhere (addWhere qb wheres) wheres' = addWhere qb (wheres ++ wheres')%list
  /\ (exists log,
        snd (run (executeFind dbGet dbSelect
                    (addArg (addHaving (addWhere qb wheres) havings) new)))
        = EvDBGet (buildCountQuery
                     (sharedBody (tableName qb) (body qb)
                                 (whereClauses qb ++ wheres)%list
                                 (havingClauses qb ++ havings)%list))
                  (args qb ++ new)%list
          :: EvDBSelect (sharedBody (tableName qb) (body qb)
                                    (whereClauses qb ++ wheres)%list
                                    (havingClauses qb ++ havings)%list
                         ++ sortAndPagination qb)
                        (args qb ++ new)%list
          :: log).
Proof.
  split; [reflexivity|]. split.
  - unfold addWhere. cbn [whereClauses tableName body havingClauses args
                            sortAndPagination]. now rewrite app_assoc.
  - rewrite executeFind_fields.
    cbn [addArg addHaving addWhere whereClauses tableName body havingClauses args
           sortAndPagination].
    fold (theFind dbGet dbSelect (tableName qb) (body qb) (args qb ++ new)%list
            (sortAndPagination qb) (whereClauses qb ++ wheres)%list
            (havingClauses qb ++ havings)%list).
    rewrite executeFindQuery_run.
    destruct (settledCount _) as [count|e];
      [destruct (settledIds _) as [ids|e']|]; eexists; reflexivity.
Qed.

End BuilderFacts.

(* ===================================================================== *)
(** ** The two search builders side by side *)
(* ===================================================================== *)

(** The (column, term) pairs a search runs over: terms outermost. *)
Definition searchPairs (columns terms : list string) : list (string * string) :=
  flat_map (fun term => map (fun column => (column, term)) columns) terms.

Lemma map_searchPairs {B : Type} (f : string * string -> B) (columns terms : list string) :
  map f (searchPairs columns terms)
  = flat_map (fun term => map (fun column => f (column, term)) columns) terms.
Proof.
  unfold searchPairs. induction terms as [|t ts IH]; [reflexivity|].
  cbn [flat_map]. rewrite map_app, map_map, IH. reflexivity.
Qed.

(** X22.  The unbound and the bound search builder run over the same
    (column, term) pairs in the same order, and take the phrase and the
    word path on the same queries: where the bound one writes a
    placeholder and binds %term%, the unbound one writes '%term%' into
    the clause. *)
Theorem search_builders_agree (columns : list string) (q : string) :
  getSearch columns q
  = "(" ++ GoStrings.Join
             (map (fun pair => fst pair ++ " LIKE '%" ++ snd pair ++ "%'")
                  (searchPairs columns (searchTerms q))) " OR " ++ ")"
  /\ getSearchBinding columns q false
     = ("(" ++ GoStrings.Join
                 (map (fun pair => fst pair ++ " LIKE ?")
                      (searchPairs columns (searchTerms q))) " OR " ++ ")",
        map (fun pair => ArgString ("%" ++ snd pair ++ "%"))
            (searchPairs columns (searchTerms q))).
Proof.
  split.
  - rewrite getSearch_over, map_searchPairs. reflexivity.
  - rewrite getSearchBinding_over, !map_searchPairs. reflexivity.
Qed.
